(** * Snapshot persistence of the Hocuspocus/Supabase server

    A shallow embedding of the [fetch] and [store] hooks that the server
    hands to the [Database] extension, together with the parts of the
    Node.js runtime ([Buffer] encodings) and of the Supabase client that
    the two hooks call.

    The sources hold several revisions of the two hooks.  The embedding
    follows the revision whose decoder reads a string column in three
    ways, in this order: escaped hexadecimal of base64 text, base64 text,
    raw character codes.  [store] is the same in every revision that
    encodes through [Buffer].

    Layout:
    - [Js]        values and strings of the host language;
    - [Node]      the [Buffer] encodings (base64, hex, utf8);
    - the world/console/exception monad in which the hooks run;
    - [fetch] and [store], transcribed statement by statement;
    - [Supabase]  a model of the table behind the client;
    - the other revisions of the hooks, one module each;
    - lemmas on the encodings, the hooks and the table;
    - the claims, C1 to C10;
    - further properties, X1 to X18, of this and the other revisions. *)

From Stdlib Require Import String Ascii.
From Stdlib Require Import List NArith ZArith Lia Bool.
From Stdlib Require DecimalString.
From Stdlib.Strings Require Import Byte.
Import ListNotations.

Local Open Scope N_scope.

(** ** Host-language values *)

Module Js.

(** A JavaScript string is a sequence of UTF-16 code units. *)
Definition jsstring := list N.

(** The contents of a [Buffer] or [Uint8Array]. *)
Definition bytes := list byte.

(** Literals are written as Rocq strings and read one code unit per
    character. *)
Fixpoint lit (s : string) : jsstring :=
  match s with
  | EmptyString => []
  | String c s' => N_of_ascii c :: lit s'
  end.

(** The values a column can surface as.  Numbers are kept as integers:
    only their type and their truthiness are ever inspected. *)
Inductive jsval :=
| JUndefined
| JNull
| JBoolean (b : bool)
| JNumber (z : Z)
| JString (s : jsstring)
| JBuffer (b : bytes)
| JObject.

(** [ToBoolean]: what [if (v)] and [a && b] test. *)
Definition truthy (v : jsval) : bool :=
  match v with
  | JUndefined | JNull => false
  | JBoolean b => b
  | JNumber z => negb (Z.eqb z 0)
  | JString s => match s with [] => false | _ :: _ => true end
  | JBuffer _ | JObject => true
  end.

Inductive jstype := TUndefined | TObject | TBoolean | TNumber | TString.

(** [typeof v]. *)
Definition typeof (v : jsval) : jstype :=
  match v with
  | JUndefined => TUndefined
  | JNull | JBuffer _ | JObject => TObject
  | JBoolean _ => TBoolean
  | JNumber _ => TNumber
  | JString _ => TString
  end.

(** Storing a number into a [Uint8Array] slot keeps its low eight bits. *)
Definition ToUint8 (n : N) : byte :=
  match Byte.of_N (n mod 256) with
  | Some b => b
  | None => x00
  end.

(** [s.substring(0, n)]. *)
Definition substring0 (n : nat) (s : jsstring) : jsstring := firstn n s.

(** [s.startsWith(p)]. *)
Fixpoint startsWith (p s : jsstring) : bool :=
  match p, s with
  | [], _ => true
  | _ :: _, [] => false
  | a :: p', b :: s' => (a =? b) && startsWith p' s'
  end.

End Js.
Import Js.

(** ** The Node.js [Buffer] encodings *)

Module Node.

(** *** base64 *)

Definition base64_table : jsstring :=
  lit "ABCDEFGHIJKLMNOPQRSTUVWXYZabcdefghijklmnopqrstuvwxyz0123456789+/".

Definition b64char (i : N) : N := nth (N.to_nat i) base64_table 0.

Definition pad : N := 61. (* '=' *)

(** [buf.toString("base64")]: three bytes become four characters, the
    last group is padded with '='.  The divisions and remainders are the
    shifts and masks of the encoder. *)
Fixpoint base64_encode (b : bytes) : jsstring :=
  match b with
  | [] => []
  | [x] =>
      let a := Byte.to_N x in
      [b64char (a / 4); b64char ((a mod 4) * 16); pad; pad]
  | [x; y] =>
      let a := Byte.to_N x in
      let b := Byte.to_N y in
      [b64char (a / 4); b64char ((a mod 4) * 16 + b / 16);
       b64char ((b mod 16) * 4); pad]
  | x :: y :: z :: rest =>
      let a := Byte.to_N x in
      let b := Byte.to_N y in
      let c := Byte.to_N z in
      b64char (a / 4) :: b64char ((a mod 4) * 16 + b / 16)
        :: b64char ((b mod 16) * 4 + c / 64) :: b64char (c mod 64)
        :: base64_encode rest
  end.

(** The decoder's table: both the standard and the URL-safe alphabet.
    The table is indexed by a byte: of a code unit only the low eight
    bits are read. *)
Definition unbase64 (unit : N) : option N :=
  let c := unit mod 256 in
  if (65 <=? c) && (c <=? 90) then Some (c - 65)
  else if (97 <=? c) && (c <=? 122) then Some (c - 71)
  else if (48 <=? c) && (c <=? 57) then Some (c + 4)
  else if (c =? 43) || (c =? 45) then Some 62
  else if (c =? 47) || (c =? 95) then Some 63
  else None.

(** Characters outside the alphabet are skipped; decoding stops at the
    first '='.  Here too a code unit counts for its low eight bits. *)
Fixpoint sextets (s : jsstring) : list N :=
  match s with
  | [] => []
  | c :: s' =>
      match unbase64 c with
      | Some v => v :: sextets s'
      | None => if c mod 256 =? pad then [] else sextets s'
      end
  end.

(** Four sextets give three bytes; a final group of three gives two, of
    two gives one, and a single left-over sextet gives nothing. *)
Fixpoint pack (l : list N) : bytes :=
  match l with
  | a :: b :: c :: d :: l' =>
      ToUint8 (a * 4 + b / 16) :: ToUint8 ((b mod 16) * 16 + c / 4)
        :: ToUint8 ((c mod 4) * 64 + d) :: pack l'
  | [a; b; c] =>
      [ToUint8 (a * 4 + b / 16); ToUint8 ((b mod 16) * 16 + c / 4)]
  | [a; b] => [ToUint8 (a * 4 + b / 16)]
  | _ => []
  end.

(** [Buffer.from(s, "base64")]. *)
Definition base64_decode (s : jsstring) : bytes := pack (sextets s).

(** *** hex *)

(** The value of a hexadecimal digit.  As for base64, of a code unit only
    the low eight bits are read. *)
Definition unhex (unit : N) : option N :=
  let c := unit mod 256 in
  if (48 <=? c) && (c <=? 57) then Some (c - 48)
  else if (97 <=? c) && (c <=? 102) then Some (c - 87)
  else if (65 <=? c) && (c <=? 70) then Some (c - 55)
  else None.

(** [Buffer.from(s, "hex")]: pairs of digits are read until the first
    pair that is not hexadecimal; an odd last character is dropped. *)
Fixpoint hex_decode (s : jsstring) : bytes :=
  match s with
  | h :: l :: s' =>
      match unhex h, unhex l with
      | Some a, Some b => ToUint8 (a * 16 + b) :: hex_decode s'
      | _, _ => []
      end
  | _ => []
  end.

Definition hexdigit (i : N) : N := if i <? 10 then 48 + i else 87 + i.

(** The hexadecimal text of a byte sequence, two lower-case digits per
    byte, as the store prints a binary column. *)
Fixpoint hex_encode (b : bytes) : jsstring :=
  match b with
  | [] => []
  | x :: b' =>
      let a := Byte.to_N x in
      hexdigit (a / 16) :: hexdigit (a mod 16) :: hex_encode b'
  end.

(** *** utf8 *)

(** State of the UTF-8 decoder between two bytes: the code point being
    assembled, the continuation bytes still expected and the range the
    next one must fall in. *)
Record utf8_state := {
  code_point : N;
  bytes_needed : nat;
  lower_boundary : N;
  upper_boundary : N
}.

Definition utf8_idle : utf8_state :=
  {| code_point := 0; bytes_needed := 0;
     lower_boundary := 128; upper_boundary := 191 |}.

Definition replacement : N := 65533. (* U+FFFD *)

(** A byte met while no sequence is open: either a code point is
    produced at once or a sequence is opened. *)
Definition utf8_lead (b : N) : list N * utf8_state :=
  if b <=? 127 then ([b], utf8_idle)
  else if (194 <=? b) && (b <=? 223) then
    ([], {| code_point := b mod 32; bytes_needed := 1;
            lower_boundary := 128; upper_boundary := 191 |})
  else if (224 <=? b) && (b <=? 239) then
    ([], {| code_point := b mod 16; bytes_needed := 2;
            lower_boundary := if b =? 224 then 160 else 128;
            upper_boundary := if b =? 237 then 159 else 191 |})
  else if (240 <=? b) && (b <=? 244) then
    ([], {| code_point := b mod 8; bytes_needed := 3;
            lower_boundary := if b =? 240 then 144 else 128;
            upper_boundary := if b =? 244 then 143 else 191 |})
  else ([replacement], utf8_idle).

(** One decoder step.  A byte that cannot continue the open sequence
    closes it with U+FFFD and is then read again as a lead byte. *)
Definition utf8_step (st : utf8_state) (b : N) : list N * utf8_state :=
  match bytes_needed st with
  | O => utf8_lead b
  | S k =>
      if (lower_boundary st <=? b) && (b <=? upper_boundary st) then
        let cp := code_point st * 64 + b mod 64 in
        match k with
        | O => ([cp], utf8_idle)
        | S _ => ([], {| code_point := cp; bytes_needed := k;
                         lower_boundary := 128; upper_boundary := 191 |})
        end
      else
        let (out, st') := utf8_lead b in (replacement :: out, st')
  end.

Fixpoint utf8_points (st : utf8_state) (b : bytes) : list N :=
  match b with
  | [] => match bytes_needed st with O => [] | S _ => [replacement] end
  | x :: b' =>
      let (out, st') := utf8_step st (Byte.to_N x) in
      out ++ utf8_points st' b'
  end.

(** A code point as UTF-16: one unit, or a surrogate pair above the
    basic plane. *)
Definition utf16_units (cp : N) : jsstring :=
  if cp <? 65536 then [cp]
  else [55296 + (cp - 65536) / 1024; 56320 + (cp - 65536) mod 1024].

(** [buf.toString("utf8")]. *)
Definition utf8_decode (b : bytes) : jsstring :=
  flat_map utf16_units (utf8_points utf8_idle b).

End Node.

(** ** Errors, completions and the console *)

(** The error object of the Supabase client. *)
Record pg_error := { code : string; message : string }.

(** What a [throw] carries: an error reported by the client, or an
    exception of the runtime. *)
Inductive exn :=
| PostgrestError (e : pg_error)
| JsError (name : string).

(** How an evaluation ends. *)
Inductive completion (A : Type) :=
| Normal (a : A)
| Throw (e : exn).
Arguments Normal {A} a.
Arguments Throw {A} e.

(** The branch of the decoder that produced the bytes. *)
Inductive branch := ViaBuffer | ViaHexBase64 | ViaBase64 | ViaRaw.

(** The console calls of the two hooks, one constructor per message, with
    the values the message interpolates.  Of the record printed after the
    query only the three flags are kept. *)
Inductive log_event :=
| Fetching (id : string)
| QueryResult (hasData hasError : bool) (errorCode : option string)
| RowNotFound (id : string)
| FetchFailed (id : string) (cause : exn)
| DataType (t : jstype) (preview : option jsstring)
| HexToBase64 (len : nat)
| Base64Preview (p : jsstring)
| Loaded (id : string) (via : branch) (n : nat)
| FirstBytes (b : bytes)
| DecodeFailed (cause : exn)
| UnexpectedFormat (id : string) (t : jstype)
| DecodingFailed (id : string) (cause : exn)
| NoDocumentData (id : string)
| Storing (id : string) (n : nat)
| Encoded (preview : jsstring)
| StoreFailed (id : string) (cause : exn)
| Stored (id : string).

(** ** The runtime and the client, as the hooks see them *)

(** The [Buffer] conversions the hooks call.  Each may complete or throw;
    [node] below is the runtime the server runs on. *)
Record Runtime := {
  from_hex : jsstring -> completion bytes;
  to_utf8 : bytes -> completion jsstring;
  from_base64 : jsstring -> completion bytes;
  to_base64 : bytes -> completion jsstring
}.

Definition node : Runtime := {|
  from_hex s := Normal (Node.hex_decode s);
  to_utf8 b := Normal (Node.utf8_decode b);
  from_base64 s := Normal (Node.base64_decode s);
  to_base64 b := Normal (Node.base64_encode b)
|}.

(** The row selected by [.select("ydoc_state")]. *)
Record selected := { ydoc_state : jsval }.

(** The [{ data, error }] pair a query resolves to. *)
Record select_response := {
  data : option selected;
  error : option pg_error
}.

(** The object handed to [upsert]. *)
Record upsert_row := {
  ticket_id : string;
  ydoc_state_text : jsstring;
  updated_at : string
}.

(** The client and the clock over a world [W]: the single-row query on
    [ticket_id], the upsert with [onConflict: "ticket_id"], and
    [new Date().toISOString()].  A call resolves to a response or rejects. *)
Record Client (W : Type) := {
  select_single : string -> W -> W * completion select_response;
  upsert : upsert_row -> W -> W * completion (option pg_error);
  now : W -> string
}.
Arguments select_single {W} _ _ _.
Arguments upsert {W} _ _ _.
Arguments now {W} _ _.

(** ** The monad of the hooks: world, console and completion *)

Record run (W A : Type) := {
  world : W;
  console : list log_event;
  result : completion A
}.
Arguments world {W A} _.
Arguments console {W A} _.
Arguments result {W A} _.

Definition M (W A : Type) := W -> run W A.

Section Monad.
Context {W : Type}.

Definition ret {A} (a : A) : M W A :=
  fun w => {| world := w; console := []; result := Normal a |}.

Definition throw {A} (e : exn) : M W A :=
  fun w => {| world := w; console := []; result := Throw e |}.

Definition bind {A B} (m : M W A) (k : A -> M W B) : M W B :=
  fun w =>
    match m w with
    | {| world := w1; console := l1; result := Normal a |} =>
        match k a w1 with
        | {| world := w2; console := l2; result := c |} =>
            {| world := w2; console := l1 ++ l2; result := c |}
        end
    | {| world := w1; console := l1; result := Throw e |} =>
        {| world := w1; console := l1; result := Throw e |}
    end.

(** [try { m } catch (e) { h e }]. *)
Definition try_catch {A} (m : M W A) (h : exn -> M W A) : M W A :=
  fun w =>
    match m w with
    | {| world := w1; console := l1; result := Normal a |} =>
        {| world := w1; console := l1; result := Normal a |}
    | {| world := w1; console := l1; result := Throw e |} =>
        match h e w1 with
        | {| world := w2; console := l2; result := c |} =>
            {| world := w2; console := l1 ++ l2; result := c |}
        end
    end.

Definition log (e : log_event) : M W unit :=
  fun w => {| world := w; console := [e]; result := Normal tt |}.

(** A conversion of the runtime: no effect on the world. *)
Definition lift {A} (c : completion A) : M W A :=
  fun w => {| world := w; console := []; result := c |}.

(** An awaited call of the client. *)
Definition await {A} (f : W -> W * completion A) : M W A :=
  fun w => let (w', c) := f w in
           {| world := w'; console := []; result := c |}.

Definition read {A} (f : W -> A) : M W A :=
  fun w => {| world := w; console := []; result := Normal (f w) |}.

End Monad.

Notation "x <- m ;; k" := (bind m (fun x => k))
  (at level 61, m at next level, right associativity).
Notation "m ;;; k" := (bind m (fun _ => k))
  (at level 61, right associativity).

(** ** The hooks *)

Definition PGRST116 : string := "PGRST116".

(** The prefix of a binary column printed in hexadecimal: a backslash and
    an x. *)
Definition bsx : jsstring := [92; 120].

(** [s.replace(/^\\x/, "")]. *)
Definition strip_bsx (s : jsstring) : jsstring :=
  if startsWith bsx s then skipn 2 s else s.

(** The character class [[A-Za-z0-9+/]]. *)
Definition b64_class (c : N) : bool :=
  ((65 <=? c) && (c <=? 90)) || ((97 <=? c) && (c <=? 122))
  || ((48 <=? c) && (c <=? 57)) || (c =? 43) || (c =? 47).

(** [={0,2}$]: what may follow the last character of the class. *)
Definition padding_only (s : jsstring) : bool :=
  match s with
  | [] => true
  | [a] => a =? 61
  | [a; b] => (a =? 61) && (b =? 61)
  | _ => false
  end.

(** [/^[A-Za-z0-9+/]*={0,2}$/.test(s)]. *)
Fixpoint isBase64 (s : jsstring) : bool :=
  match s with
  | [] => true
  | c :: s' => if b64_class c then isBase64 s' else padding_only s
  end.

(** The loop [bytes[i] = s.charCodeAt(i)] over a fresh [Uint8Array]. *)
Definition char_codes (s : jsstring) : bytes := map ToUint8 s.

(** [!!v] for a value that is an object or [null]. *)
Definition is_some {A} (o : option A) : bool :=
  match o with Some _ => true | None => false end.

Section Hooks.
Context {W : Type}.
Variable rt : Runtime.
Variable cl : Client W.

(** The branch [typeof data.ydoc_state === "string"] with its own
    [try]/[catch]. *)
Definition decode_string (documentName : string) (s : jsstring)
  : M W (option bytes) :=
  try_catch
    (if startsWith bsx s then
       let hexString := strip_bsx s in
       buf <- lift (from_hex rt hexString) ;;
       base64String <- lift (to_utf8 rt buf) ;;
       log (HexToBase64 (length base64String)) ;;;
       log (Base64Preview (substring0 50 base64String)) ;;;
       bytes <- lift (from_base64 rt base64String) ;;
       log (Loaded documentName ViaHexBase64 (length bytes)) ;;;
       log (FirstBytes (firstn 10 bytes)) ;;;
       ret (Some bytes)
     else if isBase64 s then
       bytes <- lift (from_base64 rt s) ;;
       log (Loaded documentName ViaBase64 (length bytes)) ;;;
       ret (Some bytes)
     else
       let bytes := char_codes s in
       log (Loaded documentName ViaRaw (length bytes)) ;;;
       ret (Some bytes))
    (fun decodeError => log (DecodeFailed decodeError) ;;; ret None).

(** The decoder: the body guarded by [if (data && data.ydoc_state)]. *)
Definition decode_column (documentName : string) (v : jsval)
  : M W (option bytes) :=
  try_catch
    (log (DataType (typeof v)
            (match v with
             | JString s => Some (substring0 50 s)
             | _ => None
             end)) ;;;
     match v with
     | JBuffer b =>
         log (Loaded documentName ViaBuffer (length b)) ;;;
         ret (Some b)
     | JString s => decode_string documentName s
     | _ =>
         log (UnexpectedFormat documentName (typeof v)) ;;;
         ret None
     end)
    (fun decodeError =>
       log (DecodingFailed documentName decodeError) ;;; ret None).

(** [fetch: async ({ documentName }) => ...]; [None] is [null]. *)
Definition fetch (documentName : string) : M W (option bytes) :=
  log (Fetching documentName) ;;;
  try_catch
    (r <- await (select_single cl documentName) ;;
     log (QueryResult (is_some (data r)) (is_some (error r))
            (option_map code (error r))) ;;;
     match error r with
     | Some e =>
         if String.eqb (code e) PGRST116 then
           log (RowNotFound documentName) ;;; ret None
         else
           log (FetchFailed documentName (PostgrestError e)) ;;;
           throw (PostgrestError e)
     | None =>
         match data r with
         | Some d =>
             if truthy (ydoc_state d) then
               decode_column documentName (ydoc_state d)
             else
               log (NoDocumentData documentName) ;;; ret None
         | None => log (NoDocumentData documentName) ;;; ret None
         end
     end)
    (fun error =>
       log (FetchFailed documentName error) ;;; ret None).

(** [store: async ({ documentName, state }) => ...]. *)
Definition store (documentName : string) (state : bytes) : M W unit :=
  log (Storing documentName (length state)) ;;;
  try_catch
    (let buffer := state in
     base64Content <- lift (to_base64 rt buffer) ;;
     log (Encoded (substring0 50 base64Content)) ;;;
     stamp <- read (now cl) ;;
     err <- await (upsert cl {| ticket_id := documentName;
                                ydoc_state_text := base64Content;
                                updated_at := stamp |}) ;;
     match err with
     | Some e =>
         log (StoreFailed documentName (PostgrestError e)) ;;;
         throw (PostgrestError e)
     | None => log (Stored documentName) ;;; ret tt
     end)
    (fun error => log (StoreFailed documentName error) ;;; throw error).

End Hooks.

(** ** Outcomes at the interface of the adapter *)

Inductive FetchOutcome :=
| Found (b : bytes)
| NotFound
| Failed (cause : exn).

(** A resolved [null] is absence, resolved bytes are a snapshot, a
    rejection is a failure. *)
Definition fetch_outcome (c : completion (option bytes)) : FetchOutcome :=
  match c with
  | Normal (Some b) => Found b
  | Normal None => NotFound
  | Throw e => Failed e
  end.

Inductive StoreOutcome :=
| StoreOk
| StoreFailedWith (cause : exn).

Definition store_outcome (c : completion unit) : StoreOutcome :=
  match c with
  | Normal _ => StoreOk
  | Throw e => StoreFailedWith e
  end.

(** The error of a single-row query that matched no row (or several). *)
Definition no_rows : pg_error :=
  {| code := "PGRST116";
     message := "JSON object requested, multiple (or no) rows returned" |}.

(** An error of another kind: the store cannot be reached. *)
Definition connection_failure : pg_error :=
  {| code := "08006"; message := "connection failure" |}.

(** ** The table behind the client *)

Module Supabase.

(** Modelled from the spec: the persisted row, "one row per document
    identifier with columns { id (unique key), binary_state,
    updated_at }".  The table [ticket_documents] itself is not part of
    the sources; [binary_state] holds the text that was written. *)
Record row := {
  id : string;
  binary_state : jsstring;
  stamp : string
}.

Definition table := list row.

Definition has_id (i : string) (r : row) : bool := String.eqb (id r) i.

Definition rows_for (i : string) (t : table) : table :=
  filter (has_id i) t.

(** Modelled from the spec: the upsert primitive, "an insert that
    becomes an update when a row with the same key already exists",
    replacing "the existing row's binary column and timestamp".  A row
    with the key is overwritten where it stands; without one the new row
    is added. *)
Definition upsert_into (r : row) (t : table) : table :=
  if existsb (has_id (id r)) t
  then map (fun r' => if has_id (id r) r' then r else r') t
  else t ++ [r].

(** Modelled from the spec: the forms in which the client surfaces the
    binary column on reading, "(b) a plain base64-encoded string" as it
    was written, or "(c) a store-escaped binary string with a fixed
    two-character prefix followed by a hexadecimal encoding of UTF-8
    bytes" of the text that was written. *)
Inductive transport := AsWritten | AsEscapedHex.

(** The text written by [store] is ASCII: one byte per character. *)
Definition surface (tr : transport) (text : jsstring) : jsval :=
  match tr with
  | AsWritten => JString text
  | AsEscapedHex => JString (bsx ++ Node.hex_encode (char_codes text))
  end.

(** The world of the hooks: the table, the wall clock, and whether the
    store is out of reach.  An outage with a [PostgrestError] is reported
    in the response; any other makes the call reject. *)
Record db := {
  rows : table;
  clock : string;
  outage : option exn
}.

Definition at_time (t : string) (w : db) : db :=
  {| rows := rows w; clock := t; outage := outage w |}.

(** Modelled from the spec: [selectOne(table, filter)], resolving to the
    row, to the store-defined not-found error, or to another error. *)
Definition db_select (tr : transport) (i : string) (w : db)
  : db * completion select_response :=
  match outage w with
  | Some (PostgrestError e) =>
      (w, Normal {| data := None; error := Some e |})
  | Some e => (w, Throw e)
  | None =>
      match rows_for i (rows w) with
      | [r] =>
          (w, Normal {| data := Some {| ydoc_state :=
                                          surface tr (binary_state r) |};
                        error := None |})
      | _ => (w, Normal {| data := None; error := Some no_rows |})
      end
  end.

(** Modelled from the spec: [upsert(table, row, conflictKey)], resolving
    to ok or to an error; a failed call leaves the table as it was. *)
Definition db_upsert (r : upsert_row) (w : db)
  : db * completion (option pg_error) :=
  match outage w with
  | Some (PostgrestError e) => (w, Normal (Some e))
  | Some e => (w, Throw e)
  | None =>
      ({| rows := upsert_into {| id := ticket_id r;
                                 binary_state := ydoc_state_text r;
                                 stamp := updated_at r |} (rows w);
          clock := clock w; outage := None |},
       Normal None)
  end.

Definition client (tr : transport) : Client db := {|
  select_single := db_select tr;
  upsert := db_upsert;
  now := clock
|}.

(** What a row holds apart from its time stamp. *)
Definition content (r : row) : string * jsstring := (id r, binary_state r).

(** At most one row per document identifier. *)
Definition unique_ids (t : table) : Prop :=
  forall i, (length (rows_for i t) <= 1)%nat.

(** The states the table can be in: empty at first, then whatever the
    hooks and the environment (time passing, the store going away and
    coming back) make of it. *)
Inductive reachable (tr : transport) : db -> Prop :=
| reach_empty t o :
    reachable tr {| rows := []; clock := t; outage := o |}
| reach_env w t o :
    reachable tr w ->
    reachable tr {| rows := rows w; clock := t; outage := o |}
| reach_store w i b :
    reachable tr w -> reachable tr (world (store node (client tr) i b w))
| reach_fetch w i :
    reachable tr w -> reachable tr (world (fetch node (client tr) i w)).

End Supabase.

(** ** Stand-in clients and readings of the interface *)

(** A client that answers every query with [q] and every upsert with [u],
    and changes nothing. *)
Definition answering (q : completion select_response)
  (u : completion (option pg_error)) : Client unit := {|
  select_single := fun _ w => (w, q);
  upsert := fun _ w => (w, u);
  now := fun _ => "1970-01-01T00:00:00.000Z"%string
|}.

(** The error an upsert ended with, if any: reported in the response, or
    the reason of the rejection. *)
Definition upsert_cause (c : completion (option pg_error)) : option exn :=
  match c with
  | Normal None => None
  | Normal (Some e) => Some (PostgrestError e)
  | Throw e => Some e
  end.

(** The answers of the query for which nothing can be read, each told
    from the answer itself: no matching row; a row whose column is null,
    undefined or the empty string; a row whose column is present but is
    neither a buffer nor a string. *)
Inductive not_found_case : select_response -> Prop :=
| no_matching_row e d :
    code e = PGRST116 ->
    not_found_case {| data := d; error := Some e |}
| null_or_empty_column v :
    v = JNull \/ v = JUndefined \/ v = JString [] ->
    not_found_case {| data := Some {| ydoc_state := v |}; error := None |}
| unexpected_column v :
    truthy v = true ->
    typeof v <> TString ->
    (forall b, v <> JBuffer b) ->
    not_found_case {| data := Some {| ydoc_state := v |}; error := None |}.

(** A hexadecimal digit, of either case. *)
Definition hex_digit (c : N) : bool :=
  ((48 <=? c) && (c <=? 57)) || ((97 <=? c) && (c <=? 102))
  || ((65 <=? c) && (c <=? 70)).

(** Text that is hexadecimal throughout: an even number of digits. *)
Fixpoint hex_text (s : jsstring) : bool :=
  match s with
  | [] => true
  | h :: l :: s' => hex_digit h && hex_digit l && hex_text s'
  | [_] => false
  end.

(** ** Auxiliary predicates *)

(** The character of sextet [i] decodes to [i], belongs to the class of
    the test, is not a backslash and is ASCII. *)
Definition sextet_ok (i : N) : bool :=
  match Node.unbase64 (Node.b64char i) with
  | Some v => v =? i
  | None => false
  end
  && b64_class (Node.b64char i)
  && negb (Node.b64char i =? 92)
  && (Node.b64char i <? 128).

(** The digit of nibble [i] decodes to [i]. *)
Definition nibble_ok (i : N) : bool :=
  match Node.unhex (Node.hexdigit i) with
  | Some v => v =? i
  | None => false
  end.

(** Text made of ASCII characters only. *)
Definition ascii_text (s : jsstring) : Prop := Forall (fun c => c < 128) s.

(** * The other revisions of the hooks

    Besides the revision embedded above, the sources hold four more, from
    the first, which reads the column with [atob] alone, to the last,
    which keeps the escaped hexadecimal branch only.  Each is transcribed
    in a module of its own, under the names [fetch] and [store] it has in
    its file. *)

(** ** The conversions they call *)

Module Web.

(** [buf.toString("binary")], and the loop
    [binary += String.fromCharCode(bytes[i])]: one character per byte. *)
Definition binary_string (b : bytes) : jsstring := map Byte.to_N b.

(** TAB, LF, FF, CR and SPACE. *)
Definition ascii_whitespace (c : N) : bool :=
  (c =? 9) || (c =? 10) || (c =? 12) || (c =? 13) || (c =? 32).

(** One or two '=' at the end of the text, removed. *)
Definition strip_padding (s : jsstring) : jsstring :=
  match rev s with
  | a :: b :: r =>
      if (a =? 61) && (b =? 61) then rev r
      else if a =? 61 then rev (b :: r)
      else s
  | [a] => if a =? 61 then [] else s
  | [] => s
  end.

Definition InvalidCharacterError : exn := JsError "InvalidCharacterError".

(** [atob(s)], the forgiving base64 decoding of the web platform: ASCII
    whitespace is dropped, the padding of a text whose length is a
    multiple of four is removed, and what is left must be characters of
    the alphabet, not one more than a multiple of four of them. *)
Definition atob (s : jsstring) : completion jsstring :=
  let data := filter (fun c => negb (ascii_whitespace c)) s in
  let data :=
    if (length data mod 4 =? 0)%nat then strip_padding data else data in
  if (length data mod 4 =? 1)%nat then Throw InvalidCharacterError
  else if forallb b64_class data
       then Normal (binary_string (Node.base64_decode data))
       else Throw InvalidCharacterError.

(** [btoa(s)]: the base64 text of a string of characters below 256. *)
Definition btoa (s : jsstring) : completion jsstring :=
  if forallb (fun c => c <? 256) s
  then Normal (Node.base64_encode (char_codes s))
  else Throw InvalidCharacterError.

(** The string a value is converted to when a string is expected.  A
    number stands for an integer that prints as its decimal numeral
    (magnitude below 10^21); a buffer prints as its utf8 text. *)
Definition ToString (v : jsval) : jsstring :=
  match v with
  | JUndefined => lit "undefined"
  | JNull => lit "null"
  | JBoolean true => lit "true"
  | JBoolean false => lit "false"
  | JNumber z => lit (DecimalString.NilZero.string_of_int (Z.to_int z))
  | JString s => s
  | JBuffer b => Node.utf8_decode b
  | JObject => lit "[object Object]"
  end.

End Web.

(** ** Their console, and the monad over it *)

(** The messages of the other revisions: those of the revision above,
    and the ones only they print. *)
Inductive legacy_event :=
| Shared (e : log_event)
| TryingHex
| LoadedHex (id : string) (n : nat)
| LoadedBufferFormat (id : string)
| LoadedBytes (id : string) (n : nat)
| UnexpectedFormatQuiet (id : string)
| DataDump (d : option selected)
| LoadedQuiet (id : string)
| StoringQuiet (id : string).

Module Trace.

Record run (E W A : Type) := {
  world : W;
  console : list E;
  result : completion A
}.
Arguments world {E W A} _.
Arguments console {E W A} _.
Arguments result {E W A} _.

Definition T (E W A : Type) := W -> run E W A.

Section Ops.
Context {E W : Type}.

Definition ret {A} (a : A) : T E W A :=
  fun w => {| world := w; console := []; result := Normal a |}.

Definition throw {A} (e : exn) : T E W A :=
  fun w => {| world := w; console := []; result := Throw e |}.

Definition bind {A B} (m : T E W A) (k : A -> T E W B) : T E W B :=
  fun w =>
    match m w with
    | {| world := w1; console := l1; result := Normal a |} =>
        match k a w1 with
        | {| world := w2; console := l2; result := c |} =>
            {| world := w2; console := l1 ++ l2; result := c |}
        end
    | {| world := w1; console := l1; result := Throw e |} =>
        {| world := w1; console := l1; result := Throw e |}
    end.

Definition try_catch {A} (m : T E W A) (h : exn -> T E W A) : T E W A :=
  fun w =>
    match m w with
    | {| world := w1; console := l1; result := Normal a |} =>
        {| world := w1; console := l1; result := Normal a |}
    | {| world := w1; console := l1; result := Throw e |} =>
        match h e w1 with
        | {| world := w2; console := l2; result := c |} =>
            {| world := w2; console := l1 ++ l2; result := c |}
        end
    end.

Definition log (e : E) : T E W unit :=
  fun w => {| world := w; console := [e]; result := Normal tt |}.

Definition lift {A} (c : completion A) : T E W A :=
  fun w => {| world := w; console := []; result := c |}.

Definition await {A} (f : W -> W * completion A) : T E W A :=
  fun w => let (w', c) := f w in
           {| world := w'; console := []; result := c |}.

Definition read {A} (f : W -> A) : T E W A :=
  fun w => {| world := w; console := []; result := Normal (f w) |}.

End Ops.

Declare Scope trace_scope.
Notation "x <- m ;; k" := (bind m (fun x => k))
  (at level 61, m at next level, right associativity) : trace_scope.
Notation "m ;;; k" := (bind m (fun _ => k))
  (at level 61, right associativity) : trace_scope.

End Trace.

(** ** First revision: [atob] alone *)

Module AtobOnly.
Import Trace.
Local Open Scope trace_scope.

Section Hooks.
Context {W : Type}.
Variable cl : Client W.

Definition fetch (documentName : string)
  : T legacy_event W (option bytes) :=
  log (Shared (Fetching documentName)) ;;;
  try_catch
    (r <- await (select_single cl documentName) ;;
     log (DataDump (data r)) ;;;
     match error r with
     | Some e =>
         if String.eqb (code e) PGRST116 then
           log (Shared (RowNotFound documentName)) ;;; ret None
         else throw (PostgrestError e)
     | None =>
         match data r with
         | Some d =>
             if truthy (ydoc_state d) then
               binaryString <- lift (Web.atob (Web.ToString (ydoc_state d))) ;;
               let bytes := char_codes binaryString in
               log (LoadedQuiet documentName) ;;;
               ret (Some bytes)
             else ret None
         | None => ret None
         end
     end)
    (fun error =>
       log (Shared (FetchFailed documentName error)) ;;; ret None).

Definition store (documentName : string) (state : bytes)
  : T legacy_event W unit :=
  log (StoringQuiet documentName) ;;;
  try_catch
    (let bytes := state in
     let binary := Web.binary_string bytes in
     base64Content <- lift (Web.btoa binary) ;;
     stamp <- read (now cl) ;;
     err <- await (upsert cl {| ticket_id := documentName;
                                ydoc_state_text := base64Content;
                                updated_at := stamp |}) ;;
     match err with
     | Some e =>
         log (Shared (StoreFailed documentName (PostgrestError e))) ;;;
         throw (PostgrestError e)
     | None => log (Shared (Stored documentName)) ;;; ret tt
     end)
    (fun error =>
       log (Shared (StoreFailed documentName error)) ;;; throw error).

End Hooks.
End AtobOnly.

(** ** Second revision: [atob], or the hexadecimal text as it is *)

Module AtobOrHex.
Import Trace.
Local Open Scope trace_scope.

Section Hooks.
Context {W : Type}.
Variable cl : Client W.

(** The body guarded by [if (data && data.ydoc_state)]. *)
Definition decode_column (documentName : string) (v : jsval)
  : T legacy_event W (option bytes) :=
  try_catch
    (match v with
     | JBuffer b =>
         log (LoadedBufferFormat documentName) ;;; ret (Some b)
     | JString s =>
         binaryString <-
           (if startsWith bsx s then
              let hexString := strip_bsx s in
              let buffer := Node.hex_decode hexString in
              ret (Web.binary_string buffer)
            else lift (Web.atob s)) ;;
         let bytes := char_codes binaryString in
         log (LoadedBytes documentName (length bytes)) ;;;
         ret (Some bytes)
     | _ => log (UnexpectedFormatQuiet documentName) ;;; ret None
     end)
    (fun decodeError =>
       log (Shared (DecodingFailed documentName decodeError)) ;;; ret None).

Definition fetch (documentName : string)
  : T legacy_event W (option bytes) :=
  log (Shared (Fetching documentName)) ;;;
  try_catch
    (r <- await (select_single cl documentName) ;;
     log (Shared (QueryResult (is_some (data r)) (is_some (error r))
                    (option_map code (error r)))) ;;;
     match error r with
     | Some e =>
         if String.eqb (code e) PGRST116 then
           log (Shared (RowNotFound documentName)) ;;; ret None
         else
           log (Shared (FetchFailed documentName (PostgrestError e))) ;;;
           throw (PostgrestError e)
     | None =>
         match data r with
         | Some d =>
             if truthy (ydoc_state d) then
               decode_column documentName (ydoc_state d)
             else
               log (Shared (NoDocumentData documentName)) ;;; ret None
         | None => log (Shared (NoDocumentData documentName)) ;;; ret None
         end
     end)
    (fun error =>
       log (Shared (FetchFailed documentName error)) ;;; ret None).

Definition store (documentName : string) (state : bytes)
  : T legacy_event W unit :=
  log (Shared (Storing documentName (length state))) ;;;
  try_catch
    (let bytes := state in
     let binary := Web.binary_string bytes in
     base64Content <- lift (Web.btoa binary) ;;
     stamp <- read (now cl) ;;
     err <- await (upsert cl {| ticket_id := documentName;
                                ydoc_state_text := base64Content;
                                updated_at := stamp |}) ;;
     match err with
     | Some e =>
         log (Shared (StoreFailed documentName (PostgrestError e))) ;;;
         throw (PostgrestError e)
     | None => log (Shared (Stored documentName)) ;;; ret tt
     end)
    (fun error =>
       log (Shared (StoreFailed documentName error)) ;;; throw error).

End Hooks.
End AtobOrHex.

(** ** Third revision: the base64 test first, then the hexadecimal text
    as it is, then raw character codes *)

Module Base64First.
Import Trace.
Local Open Scope trace_scope.

Section Hooks.
Context {W : Type}.
Variable rt : Runtime.
Variable cl : Client W.

Definition decode_string (documentName : string) (s : jsstring)
  : T legacy_event W (option bytes) :=
  try_catch
    (if isBase64 s then
       bytes <- lift (from_base64 rt s) ;;
       log (Shared (Loaded documentName ViaBase64 (length bytes))) ;;;
       log (Shared (FirstBytes (firstn 10 bytes))) ;;;
       ret (Some bytes)
     else
       log TryingHex ;;;
       if startsWith bsx s then
         let hexString := strip_bsx s in
         bytes <- lift (from_hex rt hexString) ;;
         log (LoadedHex documentName (length bytes)) ;;;
         ret (Some bytes)
       else
         let bytes := char_codes s in
         log (Shared (Loaded documentName ViaRaw (length bytes))) ;;;
         ret (Some bytes))
    (fun decodeError => log (Shared (DecodeFailed decodeError)) ;;; ret None).

Definition decode_column (documentName : string) (v : jsval)
  : T legacy_event W (option bytes) :=
  try_catch
    (log (Shared (DataType (typeof v)
                    (match v with
                     | JString s => Some (substring0 50 s)
                     | _ => None
                     end))) ;;;
     match v with
     | JBuffer b =>
         log (Shared (Loaded documentName ViaBuffer (length b))) ;;;
         ret (Some b)
     | JString s => decode_string documentName s
     | _ =>
         log (Shared (UnexpectedFormat documentName (typeof v))) ;;;
         ret None
     end)
    (fun decodeError =>
       log (Shared (DecodingFailed documentName decodeError)) ;;; ret None).

Definition fetch (documentName : string)
  : T legacy_event W (option bytes) :=
  log (Shared (Fetching documentName)) ;;;
  try_catch
    (r <- await (select_single cl documentName) ;;
     log (Shared (QueryResult (is_some (data r)) (is_some (error r))
                    (option_map code (error r)))) ;;;
     match error r with
     | Some e =>
         if String.eqb (code e) PGRST116 then
           log (Shared (RowNotFound documentName)) ;;; ret None
         else
           log (Shared (FetchFailed documentName (PostgrestError e))) ;;;
           throw (PostgrestError e)
     | None =>
         match data r with
         | Some d =>
             if truthy (ydoc_state d) then
               decode_column documentName (ydoc_state d)
             else
               log (Shared (NoDocumentData documentName)) ;;; ret None
         | None => log (Shared (NoDocumentData documentName)) ;;; ret None
         end
     end)
    (fun error =>
       log (Shared (FetchFailed documentName error)) ;;; ret None).

End Hooks.
End Base64First.

(** ** Last revision: the escaped hexadecimal branch only *)

Module HexOnly.

Section Hooks.
Context {W : Type}.
Variable rt : Runtime.
Variable cl : Client W.

(** The string branch.  [Some r] is [return r]; [None] is the end of the
    block reached without a [return]. *)
Definition decode_string (documentName : string) (s : jsstring)
  : M W (option (option bytes)) :=
  try_catch
    (if startsWith bsx s then
       let hexString := strip_bsx s in
       buf <- lift (from_hex rt hexString) ;;
       base64String <- lift (to_utf8 rt buf) ;;
       bytes <- lift (from_base64 rt base64String) ;;
       ret (Some (Some bytes))
     else ret None)
    (fun decodeError =>
       log (DecodeFailed decodeError) ;;; ret (Some None)).

Definition decode_column (documentName : string) (v : jsval)
  : M W (option (option bytes)) :=
  try_catch
    (match v with
     | JString s => decode_string documentName s
     | _ =>
         log (UnexpectedFormat documentName (typeof v)) ;;;
         ret (Some None)
     end)
    (fun decodeError =>
       log (DecodingFailed documentName decodeError) ;;; ret (Some None)).

Definition fetch (documentName : string) : M W (option bytes) :=
  log (Fetching documentName) ;;;
  try_catch
    (r <- await (select_single cl documentName) ;;
     log (QueryResult (is_some (data r)) (is_some (error r))
            (option_map code (error r))) ;;;
     match error r with
     | Some e =>
         if String.eqb (code e) PGRST116 then
           log (RowNotFound documentName) ;;; ret None
         else
           log (FetchFailed documentName (PostgrestError e)) ;;;
           throw (PostgrestError e)
     | None =>
         match data r with
         | Some d =>
             if truthy (ydoc_state d) then
               returned <- decode_column documentName (ydoc_state d) ;;
               match returned with
               | Some value => ret value
               | None => log (NoDocumentData documentName) ;;; ret None
               end
             else
               log (NoDocumentData documentName) ;;; ret None
         | None => log (NoDocumentData documentName) ;;; ret None
         end
     end)
    (fun error =>
       log (FetchFailed documentName error) ;;; ret None).

Definition store (documentName : string) (state : bytes) : M W unit :=
  log (Storing documentName (length state)) ;;;
  try_catch
    (let buffer := state in
     base64Content <- lift (to_base64 rt buffer) ;;
     stamp <- read (now cl) ;;
     err <- await (upsert cl {| ticket_id := documentName;
                                ydoc_state_text := base64Content;
                                updated_at := stamp |}) ;;
     match err with
     | Some e =>
         log (StoreFailed documentName (PostgrestError e)) ;;;
         throw (PostgrestError e)
     | None => log (Stored documentName) ;;; ret tt
     end)
    (fun error => log (StoreFailed documentName error) ;;; throw error).

End Hooks.
End HexOnly.

(** ** Text as other writers leave it *)

(** The base64 text of a byte sequence without its padding. *)
Fixpoint base64_unpadded (b : bytes) : jsstring :=
  match b with
  | [] => []
  | [x] =>
      let a := Byte.to_N x in
      [Node.b64char (a / 4); Node.b64char ((a mod 4) * 16)]
  | [x; y] =>
      let a := Byte.to_N x in
      let b := Byte.to_N y in
      [Node.b64char (a / 4); Node.b64char ((a mod 4) * 16 + b / 16);
       Node.b64char ((b mod 16) * 4)]
  | x :: y :: z :: rest =>
      let a := Byte.to_N x in
      let b := Byte.to_N y in
      let c := Byte.to_N z in
      Node.b64char (a / 4) :: Node.b64char ((a mod 4) * 16 + b / 16)
        :: Node.b64char ((b mod 16) * 4 + c / 64) :: Node.b64char (c mod 64)
        :: base64_unpadded rest
  end.

(** The padding that completes it: none, one or two '='. *)
Fixpoint base64_padding (b : bytes) : jsstring :=
  match b with
  | [] => []
  | [_] => [Node.pad; Node.pad]
  | [_; _] => [Node.pad]
  | _ :: _ :: _ :: rest => base64_padding rest
  end.

(** A character [atob] refuses wherever it stands: outside the alphabet,
    not '=' and not whitespace. *)
Definition atob_refuses (c : N) : bool :=
  negb (b64_class c) && negb (c =? 61) && negb (Web.ascii_whitespace c).

(** Whether the answer of the query is a row whose column is a string that
    starts with the escape prefix. *)
Definition prefixed_answer (c : completion select_response) : bool :=
  match c with
  | Normal r =>
      match error r, data r with
      | None, Some d =>
          match ydoc_state d with
          | JString s => startsWith bsx s
          | _ => false
          end
      | _, _ => false
      end
  | Throw _ => false
  end.

(** Whether the query ended with an error, reported or thrown. *)
Definition failed_answer (c : completion select_response) : bool :=
  match c with
  | Normal r => is_some (error r)
  | Throw _ => true
  end.

(** * Properties *)

(** ** Bytes and small numbers *)

Lemma ToUint8_to_N (x : byte) : ToUint8 (Byte.to_N x) = x.
Proof.
  unfold ToUint8.
  rewrite N.mod_small by (pose proof (Byte.to_N_bounded x); lia).
  now rewrite Byte.of_to_N.
Qed.

Lemma to_N_ToUint8 (n : N) : Byte.to_N (ToUint8 n) = n mod 256.
Proof.
  unfold ToUint8.
  destruct (Byte.of_N (n mod 256)) as [b|] eqn:E.
  - now apply Byte.to_of_N.
  - apply Byte.of_N_None_iff in E.
    pose proof (N.mod_upper_bound n 256). lia.
Qed.

Lemma to_N_lt_256 (x : byte) : Byte.to_N x < 256.
Proof. pose proof (Byte.to_N_bounded x). lia. Qed.

(** A boolean property checked on [0 .. n-1] holds below [n]. *)
Lemma below_forallb (f : N -> bool) (n : nat) :
  forallb f (map N.of_nat (seq 0 n)) = true ->
  forall i, i < N.of_nat n -> f i = true.
Proof.
  intros H i Hi.
  rewrite forallb_forall in H. apply H.
  apply in_map_iff. exists (N.to_nat i). split.
  - apply N2Nat.id.
  - apply in_seq. lia.
Qed.

Lemma list_ind3 {A} (P : list A -> Prop) :
  P [] -> (forall x, P [x]) -> (forall x y, P [x; y]) ->
  (forall x y z l, P l -> P (x :: y :: z :: l)) ->
  forall l, P l.
Proof.
  intros H0 H1 H2 H3 l.
  enough (H : P l /\ (forall x, P (x :: l)) /\ (forall x y, P (x :: y :: l)))
    by apply H.
  induction l as [|a l IH].
  - auto.
  - destruct IH as (Hl & Hx & Hxy). repeat split; auto.
Qed.

(** ** The base64 alphabet *)

Lemma sextet_ok_below (i : N) : i < 64 -> sextet_ok i = true.
Proof.
  apply (below_forallb sextet_ok 64). vm_compute. reflexivity.
Qed.

Lemma unbase64_b64char (i : N) :
  i < 64 -> Node.unbase64 (Node.b64char i) = Some i.
Proof.
  intros H. apply sextet_ok_below in H. unfold sextet_ok in H.
  repeat (apply andb_prop in H; destruct H as [H ?]).
  destruct (Node.unbase64 (Node.b64char i)); [|discriminate].
  apply N.eqb_eq in H. now subst.
Qed.

Lemma b64_class_b64char (i : N) : i < 64 -> b64_class (Node.b64char i) = true.
Proof.
  intros H. apply sextet_ok_below in H. unfold sextet_ok in H.
  repeat (apply andb_prop in H; destruct H as [H ?]). assumption.
Qed.

Lemma b64char_not_backslash (i : N) : i < 64 -> (Node.b64char i =? 92) = false.
Proof.
  intros H. apply sextet_ok_below in H. unfold sextet_ok in H.
  repeat (apply andb_prop in H; destruct H as [H ?]).
  now apply negb_true_iff.
Qed.

Lemma b64char_ascii (i : N) : i < 64 -> Node.b64char i < 128.
Proof.
  intros H. apply sextet_ok_below in H. unfold sextet_ok in H.
  repeat (apply andb_prop in H; destruct H as [H ?]).
  now apply N.ltb_lt.
Qed.

Lemma sextets_b64char (i : N) (s : jsstring) :
  i < 64 -> Node.sextets (Node.b64char i :: s) = i :: Node.sextets s.
Proof.
  intros H. cbn [Node.sextets]. now rewrite unbase64_b64char.
Qed.

Lemma sextets_pad (s : jsstring) : Node.sextets (Node.pad :: s) = [].
Proof. reflexivity. Qed.

(** The four sextets of a group of three bytes, and back. *)

Lemma div_lt_16 (b : N) : b < 256 -> b / 16 < 16.
Proof. intros. apply N.Div0.div_lt_upper_bound. lia. Qed.

Lemma div_lt_4 (c : N) : c < 256 -> c / 64 < 4.
Proof. intros. apply N.Div0.div_lt_upper_bound. lia. Qed.

Lemma sextet0_lt (a : N) : a < 256 -> a / 4 < 64.
Proof. intros. apply N.Div0.div_lt_upper_bound. lia. Qed.

Lemma sextet1_lt (a b : N) : b < 256 -> (a mod 4) * 16 + b / 16 < 64.
Proof.
  intros Hb. pose proof (N.mod_upper_bound a 4).
  pose proof (div_lt_16 b Hb). lia.
Qed.

Lemma sextet1_last_lt (a : N) : (a mod 4) * 16 < 64.
Proof. pose proof (N.mod_upper_bound a 4). lia. Qed.

Lemma sextet2_lt (b c : N) : c < 256 -> (b mod 16) * 4 + c / 64 < 64.
Proof.
  intros Hc. pose proof (N.mod_upper_bound b 16).
  pose proof (div_lt_4 c Hc). lia.
Qed.

Lemma sextet2_last_lt (b : N) : (b mod 16) * 4 < 64.
Proof. pose proof (N.mod_upper_bound b 16). lia. Qed.

Lemma sextet3_lt (c : N) : c mod 64 < 64.
Proof. apply N.mod_upper_bound. lia. Qed.

Lemma high_part (q r d : N) : d <> 0 -> r < d -> (q * d + r) / d = q.
Proof.
  intros Hd Hr. rewrite N.add_comm, N.div_add by assumption.
  rewrite N.div_small by assumption. reflexivity.
Qed.

Lemma low_part (q r d : N) : d <> 0 -> r < d -> (q * d + r) mod d = r.
Proof.
  intros Hd Hr. rewrite N.add_comm, N.Div0.mod_add.
  now apply N.mod_small.
Qed.

Lemma byte0_back (a b : N) :
  b < 256 -> (a / 4) * 4 + ((a mod 4) * 16 + b / 16) / 16 = a.
Proof.
  intros Hb. rewrite high_part by (try apply div_lt_16; (assumption || lia)).
  pose proof (N.div_mod a 4). lia.
Qed.

Lemma byte0_last_back (a : N) : (a / 4) * 4 + ((a mod 4) * 16) / 16 = a.
Proof. rewrite N.div_mul by lia. pose proof (N.div_mod a 4). lia. Qed.

Lemma byte1_back (a b c : N) :
  b < 256 -> c < 256 ->
  (((a mod 4) * 16 + b / 16) mod 16) * 16
  + ((b mod 16) * 4 + c / 64) / 4 = b.
Proof.
  intros Hb Hc.
  rewrite low_part by (try apply div_lt_16; (assumption || lia)).
  rewrite high_part by (try apply div_lt_4; (assumption || lia)).
  pose proof (N.div_mod b 16). lia.
Qed.

Lemma byte1_last_back (a b : N) :
  b < 256 ->
  (((a mod 4) * 16 + b / 16) mod 16) * 16 + ((b mod 16) * 4) / 4 = b.
Proof.
  intros Hb.
  rewrite low_part by (try apply div_lt_16; (assumption || lia)).
  rewrite N.div_mul by lia. pose proof (N.div_mod b 16). lia.
Qed.

Lemma byte2_back (b c : N) :
  c < 256 -> (((b mod 16) * 4 + c / 64) mod 4) * 64 + c mod 64 = c.
Proof.
  intros Hc.
  rewrite low_part by (try apply div_lt_4; (assumption || lia)).
  pose proof (N.div_mod c 64). lia.
Qed.

(** ** base64: decoding what was encoded *)

Lemma base64_round_trip (b : bytes) :
  Node.base64_decode (Node.base64_encode b) = b.
Proof.
  unfold Node.base64_decode.
  induction b as [|x|x y|x y z l IH] using list_ind3.
  - reflexivity.
  - pose proof (to_N_lt_256 x) as Hx.
    cbn [Node.base64_encode].
    rewrite sextets_b64char by now apply sextet0_lt.
    rewrite sextets_b64char by now apply sextet1_last_lt.
    rewrite sextets_pad. cbn [Node.pack].
    rewrite byte0_last_back, ToUint8_to_N. reflexivity.
  - pose proof (to_N_lt_256 x) as Hx. pose proof (to_N_lt_256 y) as Hy.
    cbn [Node.base64_encode].
    rewrite sextets_b64char by now apply sextet0_lt.
    rewrite sextets_b64char by now apply sextet1_lt.
    rewrite sextets_b64char by now apply sextet2_last_lt.
    rewrite sextets_pad. cbn [Node.pack].
    rewrite byte0_back, byte1_last_back, !ToUint8_to_N by assumption.
    reflexivity.
  - pose proof (to_N_lt_256 x) as Hx. pose proof (to_N_lt_256 y) as Hy.
    pose proof (to_N_lt_256 z) as Hz.
    cbn [Node.base64_encode].
    rewrite sextets_b64char by now apply sextet0_lt.
    rewrite sextets_b64char by now apply sextet1_lt.
    rewrite sextets_b64char by now apply sextet2_lt.
    rewrite sextets_b64char by now apply sextet3_lt.
    cbn [Node.pack].
    rewrite byte0_back, byte1_back, byte2_back, !ToUint8_to_N by assumption.
    now rewrite IH.
Qed.

(** The text produced by the encoder passes the test of the base64
    branch, never carries the escape prefix, and is ASCII. *)

Lemma isBase64_b64char (i : N) (s : jsstring) :
  i < 64 -> isBase64 (Node.b64char i :: s) = isBase64 s.
Proof.
  intros H. cbn [isBase64]. now rewrite b64_class_b64char.
Qed.

Lemma isBase64_encode (b : bytes) : isBase64 (Node.base64_encode b) = true.
Proof.
  induction b as [|x|x y|x y z l IH] using list_ind3.
  - reflexivity.
  - pose proof (to_N_lt_256 x).
    cbn [Node.base64_encode].
    rewrite isBase64_b64char by now apply sextet0_lt.
    rewrite isBase64_b64char by now apply sextet1_last_lt.
    reflexivity.
  - pose proof (to_N_lt_256 x). pose proof (to_N_lt_256 y).
    cbn [Node.base64_encode].
    rewrite isBase64_b64char by now apply sextet0_lt.
    rewrite isBase64_b64char by now apply sextet1_lt.
    rewrite isBase64_b64char by now apply sextet2_last_lt.
    reflexivity.
  - pose proof (to_N_lt_256 x). pose proof (to_N_lt_256 y).
    pose proof (to_N_lt_256 z).
    cbn [Node.base64_encode].
    rewrite isBase64_b64char by now apply sextet0_lt.
    rewrite isBase64_b64char by now apply sextet1_lt.
    rewrite isBase64_b64char by now apply sextet2_lt.
    rewrite isBase64_b64char by now apply sextet3_lt.
    exact IH.
Qed.

Lemma encode_no_prefix (b : bytes) :
  startsWith bsx (Node.base64_encode b) = false.
Proof.
  destruct b as [|x [|y [|z l]]]; [reflexivity| | |];
    pose proof (to_N_lt_256 x);
    cbn [Node.base64_encode startsWith bsx];
    rewrite N.eqb_sym, b64char_not_backslash by (now apply sextet0_lt);
    reflexivity.
Qed.

Lemma encode_ascii (b : bytes) : ascii_text (Node.base64_encode b).
Proof.
  unfold ascii_text.
  assert (Hpad : Node.pad < 128) by (unfold Node.pad; lia).
  induction b as [|x|x y|x y z l IH] using list_ind3.
  - constructor.
  - pose proof (to_N_lt_256 x). cbn [Node.base64_encode].
    repeat constructor; try assumption; apply b64char_ascii;
      auto using sextet0_lt, sextet1_last_lt.
  - pose proof (to_N_lt_256 x). pose proof (to_N_lt_256 y).
    cbn [Node.base64_encode].
    repeat constructor; try assumption; apply b64char_ascii;
      auto using sextet0_lt, sextet1_lt, sextet2_last_lt.
  - pose proof (to_N_lt_256 x). pose proof (to_N_lt_256 y).
    pose proof (to_N_lt_256 z). cbn [Node.base64_encode].
    repeat (constructor; [apply b64char_ascii;
      auto using sextet0_lt, sextet1_lt, sextet2_lt, sextet3_lt|]).
    exact IH.
Qed.

(** ** hex: decoding what the store printed *)

Lemma unhex_hexdigit (i : N) :
  i < 16 -> Node.unhex (Node.hexdigit i) = Some i.
Proof.
  intros H. apply (below_forallb nibble_ok 16) in H; [|now vm_compute].
  unfold nibble_ok in H.
  destruct (Node.unhex (Node.hexdigit i)); [|discriminate].
  apply N.eqb_eq in H. now subst.
Qed.

Lemma hex_round_trip (b : bytes) : Node.hex_decode (Node.hex_encode b) = b.
Proof.
  induction b as [|x b IH]; [reflexivity|].
  pose proof (to_N_lt_256 x) as Hx.
  cbn [Node.hex_encode Node.hex_decode].
  rewrite unhex_hexdigit by now apply div_lt_16.
  rewrite unhex_hexdigit by (apply N.mod_upper_bound; lia).
  rewrite IH. f_equal.
  replace (Byte.to_N x / 16 * 16 + Byte.to_N x mod 16) with (Byte.to_N x)
    by (pose proof (N.div_mod (Byte.to_N x) 16); lia).
  apply ToUint8_to_N.
Qed.

Lemma startsWith_bsx_app (s : jsstring) : startsWith bsx (bsx ++ s) = true.
Proof. reflexivity. Qed.

Lemma strip_bsx_app (s : jsstring) : strip_bsx (bsx ++ s) = s.
Proof. reflexivity. Qed.

(** ** utf8: ASCII bytes read back as the same characters *)

Lemma utf8_points_ascii (s : jsstring) :
  ascii_text s -> Node.utf8_points Node.utf8_idle (char_codes s) = s.
Proof.
  induction 1 as [|c s Hc Hs IH]; [reflexivity|].
  cbn [char_codes map Node.utf8_points].
  rewrite to_N_ToUint8, N.mod_small by lia.
  unfold Node.utf8_step. cbn [Node.bytes_needed Node.utf8_idle].
  unfold Node.utf8_lead.
  replace (c <=? 127) with true by (symmetry; apply N.leb_le; lia).
  cbn [app]. f_equal. exact IH.
Qed.

Lemma flat_map_units_ascii (s : jsstring) :
  ascii_text s -> flat_map Node.utf16_units s = s.
Proof.
  induction 1 as [|c s Hc Hs IH]; [reflexivity|].
  cbn [flat_map]. unfold Node.utf16_units at 1.
  replace (c <? 65536) with true by (symmetry; apply N.ltb_lt; lia).
  cbn [app]. now rewrite IH.
Qed.

Lemma utf8_decode_ascii (s : jsstring) :
  ascii_text s -> Node.utf8_decode (char_codes s) = s.
Proof.
  intros H. unfold Node.utf8_decode.
  rewrite utf8_points_ascii by assumption.
  now apply flat_map_units_ascii.
Qed.

(** ** The monad: two facts on completion *)

Lemma result_bind_log {W A} (x : log_event) (k : M W A) (w : W) :
  result (bind (log x) (fun _ => k) w) = result (k w).
Proof. unfold bind, log. destruct (k w). reflexivity. Qed.

(** A [try] whose handler completes, completes. *)
Lemma try_catch_completes {W A} (m : M W A) (h : exn -> M W A) (w : W) :
  (forall e w1, exists o, result (h e w1) = Normal o) ->
  exists o, result (try_catch m h w) = Normal o.
Proof.
  intros H. unfold try_catch.
  destruct (m w) as [w1 l1 [a|e]]; cbn; [eauto|].
  destruct (H e w1) as [o Ho].
  destruct (h e w1) as [w2 l2 c]. cbn in *. eauto.
Qed.

(** ** The hooks, branch by branch *)

Lemma decode_string_hex {W} (i : string) (s : jsstring) (w : W) :
  startsWith bsx s = true ->
  decode_string node i s w =
    let text := Node.utf8_decode (Node.hex_decode (strip_bsx s)) in
    let b := Node.base64_decode text in
    {| world := w;
       console := [HexToBase64 (length text);
                   Base64Preview (substring0 50 text);
                   Loaded i ViaHexBase64 (length b);
                   FirstBytes (firstn 10 b)];
       result := Normal (Some b) |}.
Proof. intros H. unfold decode_string. rewrite H. reflexivity. Qed.

Lemma decode_string_base64 {W} (i : string) (s : jsstring) (w : W) :
  startsWith bsx s = false -> isBase64 s = true ->
  decode_string node i s w =
    {| world := w;
       console := [Loaded i ViaBase64 (length (Node.base64_decode s))];
       result := Normal (Some (Node.base64_decode s)) |}.
Proof. intros H1 H2. unfold decode_string. rewrite H1, H2. reflexivity. Qed.

Lemma decode_string_raw {W} (rt : Runtime) (i : string) (s : jsstring)
  (w : W) :
  startsWith bsx s = false -> isBase64 s = false ->
  decode_string rt i s w =
    {| world := w;
       console := [Loaded i ViaRaw (length (char_codes s))];
       result := Normal (Some (char_codes s)) |}.
Proof. intros H1 H2. unfold decode_string. rewrite H1, H2. reflexivity. Qed.

(** The [catch] of the string branch turns every exception into [null]:
    whatever the runtime does, the branch completes. *)
Lemma decode_string_completes {W} (rt : Runtime) (i : string)
  (s : jsstring) (w : W) :
  exists l r, decode_string rt i s w =
                {| world := w; console := l; result := Normal r |}.
Proof.
  unfold decode_string.
  destruct (startsWith bsx s).
  - unfold try_catch, bind, lift, log, ret; cbn.
    destruct (from_hex rt (strip_bsx s)) as [buf|e]; cbn; [|eauto].
    destruct (to_utf8 rt buf) as [text|e]; cbn; [|eauto].
    destruct (from_base64 rt text) as [b|e]; cbn; eauto.
  - destruct (isBase64 s).
    + unfold try_catch, bind, lift, log, ret; cbn.
      destruct (from_base64 rt s) as [b|e]; cbn; eauto.
    + cbn. eauto.
Qed.

Lemma decode_column_string {W} (rt : Runtime) (i : string) (s : jsstring)
  (w : W) :
  decode_column rt i (JString s) w =
    let r := decode_string rt i s w in
    {| world := world r;
       console := DataType TString (Some (substring0 50 s)) :: console r;
       result := result r |}.
Proof.
  destruct (decode_string_completes rt i s w) as (l & r & E).
  unfold decode_column, try_catch, bind, log. cbn.
  rewrite E. reflexivity.
Qed.

(** The decoder does not look at the world: it reads and writes none of
    it, and what it returns and prints is the same in every world. *)
Lemma decode_string_world {W} (rt : Runtime) (i : string) (s : jsstring)
  (w : W) :
  decode_string rt i s w =
    {| world := w;
       console := console (decode_string rt i s tt);
       result := result (decode_string rt i s tt) |}.
Proof.
  unfold decode_string.
  destruct (startsWith bsx s).
  - unfold try_catch, bind, lift, log, ret; cbn.
    destruct (from_hex rt (strip_bsx s)) as [buf|e]; cbn; [|reflexivity].
    destruct (to_utf8 rt buf) as [text|e]; cbn; [|reflexivity].
    destruct (from_base64 rt text) as [b|e]; reflexivity.
  - destruct (isBase64 s).
    + unfold try_catch, bind, lift, log, ret; cbn.
      destruct (from_base64 rt s) as [b|e]; reflexivity.
    + reflexivity.
Qed.

Lemma decode_column_world {W} (rt : Runtime) (i : string) (v : jsval)
  (w : W) :
  decode_column rt i v w =
    {| world := w;
       console := console (decode_column rt i v tt);
       result := result (decode_column rt i v tt) |}.
Proof.
  destruct v; try reflexivity.
  rewrite !decode_column_string. cbn.
  rewrite (decode_string_world rt i s w). reflexivity.
Qed.

(** The world after [store] is the world after the one upsert it issues,
    of the row holding the encoded bytes and the time read. *)
Lemma store_world {W} (cl : Client W) (i : string) (b : bytes) (w : W) :
  world (store node cl i b w) =
    fst (upsert cl {| ticket_id := i;
                      ydoc_state_text := Node.base64_encode b;
                      updated_at := now cl w |} w).
Proof.
  unfold store, try_catch, bind, lift, log, ret, read, await, throw; cbn.
  destruct (upsert cl _ w) as [w' [[e|]|e]]; reflexivity.
Qed.

(** The base64 text of any bytes goes through the base64 branch. *)
Lemma base64_text_decoded {W} (i : string) (b : bytes) (w : W) :
  decode_column node i (JString (Node.base64_encode b)) w =
    {| world := w;
       console :=
         [DataType TString (Some (substring0 50 (Node.base64_encode b)));
          Loaded i ViaBase64 (length b)];
       result := Normal (Some b) |}.
Proof.
  rewrite decode_column_string.
  rewrite decode_string_base64
    by auto using encode_no_prefix, isBase64_encode.
  rewrite base64_round_trip. reflexivity.
Qed.

(** The escaped hexadecimal form of that text goes through the
    hexadecimal branch, to the same bytes. *)
Lemma escaped_text_decoded {W} (i : string) (b : bytes) (w : W) :
  decode_column node i
    (JString (bsx ++ Node.hex_encode (char_codes (Node.base64_encode b)))) w =
    {| world := w;
       console :=
         [DataType TString
            (Some (substring0 50
               (bsx ++ Node.hex_encode (char_codes (Node.base64_encode b)))));
          HexToBase64 (length (Node.base64_encode b));
          Base64Preview (substring0 50 (Node.base64_encode b));
          Loaded i ViaHexBase64 (length b);
          FirstBytes (firstn 10 b)];
       result := Normal (Some b) |}.
Proof.
  rewrite decode_column_string.
  rewrite decode_string_hex by apply startsWith_bsx_app.
  cbv zeta. rewrite strip_bsx_app, hex_round_trip.
  rewrite utf8_decode_ascii by apply encode_ascii.
  rewrite base64_round_trip. reflexivity.
Qed.

(** ** [fetch], answer by answer *)

Section FetchCases.
Context {W : Type}.
Variable rt : Runtime.
Variable cl : Client W.
Variables (i : string) (w w' : W) (r : select_response).
Hypothesis answer : select_single cl i w = (w', Normal r).

Lemma fetch_row_not_found (e : pg_error) :
  error r = Some e -> String.eqb (code e) PGRST116 = true ->
  fetch rt cl i w =
    {| world := w';
       console := [Fetching i;
                   QueryResult (is_some (data r)) true
                     (Some (code e));
                   RowNotFound i];
       result := Normal None |}.
Proof using answer.
  intros He Hc.
  unfold fetch, try_catch, bind, await, log. rewrite answer. cbn.
  rewrite He. cbn. rewrite Hc. reflexivity.
Qed.

Lemma fetch_other_error (e : pg_error) :
  error r = Some e -> String.eqb (code e) PGRST116 = false ->
  fetch rt cl i w =
    {| world := w';
       console := [Fetching i;
                   QueryResult (is_some (data r)) true
                     (Some (code e));
                   FetchFailed i (PostgrestError e);
                   FetchFailed i (PostgrestError e)];
       result := Normal None |}.
Proof using answer.
  intros He Hc.
  unfold fetch, try_catch, bind, await, log. rewrite answer. cbn.
  rewrite He. cbn. rewrite Hc. reflexivity.
Qed.

Lemma fetch_no_data (d : option selected) :
  error r = None -> data r = d ->
  match d with Some x => truthy (ydoc_state x) | None => false end = false ->
  fetch rt cl i w =
    {| world := w';
       console := [Fetching i;
                   QueryResult (is_some d) false None;
                   NoDocumentData i];
       result := Normal None |}.
Proof using answer.
  intros He Hd Hv.
  unfold fetch, try_catch, bind, await, log. rewrite answer. cbn.
  rewrite He, Hd. cbn. destruct d as [x|]; [rewrite Hv|]; reflexivity.
Qed.

Lemma fetch_decodes (x : selected) :
  error r = None -> data r = Some x -> truthy (ydoc_state x) = true ->
  fetch rt cl i w =
    {| world := w';
       console := Fetching i :: QueryResult true false None
                    :: console (decode_column rt i (ydoc_state x) tt);
       result := result (decode_column rt i (ydoc_state x) tt) |}.
Proof using answer.
  intros He Hd Hv.
  unfold fetch, try_catch, bind, await, log. rewrite answer. cbn.
  rewrite He, Hd. cbn. rewrite Hv.
  rewrite (decode_column_world rt i (ydoc_state x) w').
  destruct (result (decode_column rt i (ydoc_state x) tt)) as [o|e] eqn:E.
  - reflexivity.
  - exfalso. destruct (ydoc_state x) as [| | | |s| |]; try discriminate E.
    rewrite decode_column_string in E. cbn in E.
    destruct (decode_string_completes rt i s tt) as (l & o & E').
    rewrite E' in E. discriminate E.
Qed.

End FetchCases.

(** ** The table under [upsert] *)

Module TableFacts.
Import Supabase.

Lemma has_id_refl (r : row) : has_id (id r) r = true.
Proof. apply String.eqb_refl. Qed.

Lemma has_id_other (j : string) (r r' : row) :
  j <> id r -> has_id (id r) r' = true -> has_id j r' = false.
Proof.
  unfold has_id. intros Hj H. apply String.eqb_eq in H.
  apply String.eqb_neq. congruence.
Qed.

Lemma existsb_filter_nil {A} (p : A -> bool) (l : list A) :
  existsb p l = false <-> filter p l = [].
Proof.
  induction l as [|a l IH]; cbn; [tauto|].
  destruct (p a); cbn; [split; discriminate|exact IH].
Qed.

(** Overwriting keeps the rows of the key where they are, all equal to
    the new row. *)
Lemma rows_for_overwrite (r : row) (t : table) :
  rows_for (id r) (map (fun r' => if has_id (id r) r' then r else r') t)
  = map (fun _ => r) (rows_for (id r) t).
Proof.
  unfold rows_for. induction t as [|a t IH]; [reflexivity|].
  cbn [map filter]. destruct (has_id (id r) a) eqn:E.
  - rewrite has_id_refl. cbn [map]. now rewrite IH.
  - rewrite E. exact IH.
Qed.

Lemma rows_for_upsert_same (r : row) (t : table) :
  unique_ids t -> rows_for (id r) (upsert_into r t) = [r].
Proof.
  intros U. unfold upsert_into.
  destruct (existsb (has_id (id r)) t) eqn:E.
  - rewrite rows_for_overwrite.
    specialize (U (id r)).
    destruct (rows_for (id r) t) as [|a [|a' l]] eqn:F.
    + apply existsb_filter_nil in F. unfold rows_for in F. congruence.
    + reflexivity.
    + cbn in U. lia.
  - apply existsb_filter_nil in E.
    unfold rows_for. rewrite filter_app, E. cbn.
    now rewrite has_id_refl.
Qed.

Lemma rows_for_upsert_other (j : string) (r : row) (t : table) :
  j <> id r -> rows_for j (upsert_into r t) = rows_for j t.
Proof.
  intros Hj. unfold upsert_into, rows_for.
  assert (Hr : has_id j r = false) by (apply String.eqb_neq; congruence).
  destruct (existsb (has_id (id r)) t).
  - induction t as [|a t IH]; [reflexivity|].
    cbn [map filter]. destruct (has_id (id r) a) eqn:E.
    + rewrite Hr, (has_id_other j r a Hj E). exact IH.
    + destruct (has_id j a); now rewrite IH.
  - rewrite filter_app. cbn. rewrite Hr. apply app_nil_r.
Qed.

Lemma unique_upsert (r : row) (t : table) :
  unique_ids t -> unique_ids (upsert_into r t).
Proof.
  intros U j. destruct (String.eqb_spec j (id r)) as [->|Hj].
  - rewrite rows_for_upsert_same by assumption. cbn. lia.
  - rewrite rows_for_upsert_other by assumption. apply U.
Qed.

Lemma unique_empty : unique_ids [].
Proof. intros j. cbn. lia. Qed.

Lemma overwrite_absent (r : row) (t : table) :
  existsb (has_id (id r)) t = false ->
  map (fun r' => if has_id (id r) r' then r else r') t = t.
Proof.
  induction t as [|a t IH]; [reflexivity|].
  cbn [existsb map]. intros H. apply orb_false_iff in H as [Ha Ht].
  rewrite Ha, IH by assumption. reflexivity.
Qed.

Lemma existsb_upsert (r : row) (t : table) :
  existsb (has_id (id r)) (upsert_into r t) = true.
Proof.
  unfold upsert_into. destruct (existsb (has_id (id r)) t) eqn:E.
  - induction t as [|a t IH]; [discriminate|].
    cbn [existsb map] in *. destruct (has_id (id r) a) eqn:F.
    + now rewrite has_id_refl.
    + cbn in E. rewrite F. cbn. auto.
  - rewrite existsb_app. cbn. rewrite has_id_refl. apply orb_true_r.
Qed.

(** A second upsert on the same key leaves what a single one would. *)
Lemma upsert_twice (r1 r2 : row) (t : table) :
  id r1 = id r2 -> upsert_into r2 (upsert_into r1 t) = upsert_into r2 t.
Proof.
  intros Hid.
  assert (E1 : existsb (has_id (id r2)) (upsert_into r1 t) = true)
    by (rewrite <- Hid; apply existsb_upsert).
  assert (H1 : has_id (id r2) r1 = true)
    by (unfold has_id; rewrite Hid; apply String.eqb_refl).
  unfold upsert_into at 1. rewrite E1. unfold upsert_into. rewrite Hid.
  destruct (existsb (has_id (id r2)) t) eqn:E.
  - rewrite map_map. apply map_ext. intros a.
    destruct (has_id (id r2) a) eqn:F; [now rewrite H1|now rewrite F].
  - rewrite map_app. cbn. rewrite H1.
    now rewrite overwrite_absent.
Qed.

(** The row count changes only when the key is new. *)
Lemma length_upsert_present (r : row) (t : table) :
  existsb (has_id (id r)) t = true ->
  length (upsert_into r t) = length t.
Proof. intros H. unfold upsert_into. rewrite H. apply length_map. Qed.

End TableFacts.

(** ** The hooks over the table *)

Lemma fetch_world {W} (rt : Runtime) (cl : Client W) (i : string) (w : W) :
  world (fetch rt cl i w) = fst (select_single cl i w).
Proof.
  destruct (select_single cl i w) as [w' [r|e]] eqn:Hq.
  - destruct (error r) as [e|] eqn:He.
    + destruct (String.eqb (code e) PGRST116) eqn:Hc.
      * now rewrite (fetch_row_not_found rt cl i w w' r Hq e He Hc).
      * now rewrite (fetch_other_error rt cl i w w' r Hq e He Hc).
    + destruct (data r) as [x|] eqn:Hd.
      * destruct (truthy (ydoc_state x)) eqn:Hv.
        -- now rewrite (fetch_decodes rt cl i w w' r Hq x He Hd Hv).
        -- now rewrite (fetch_no_data rt cl i w w' r Hq (Some x) He Hd Hv).
      * now rewrite (fetch_no_data rt cl i w w' r Hq None He Hd eq_refl).
  - unfold fetch, try_catch, bind, await, log. rewrite Hq. reflexivity.
Qed.

Lemma encode_nonempty (x : byte) (l : bytes) :
  truthy (JString (Node.base64_encode (x :: l))) = true.
Proof. destruct l as [|y [|z l]]; reflexivity. Qed.

Section OverTheTable.
Import Supabase TableFacts.
Lemma store_db (tr : transport) (i : string) (b : bytes) (t : table) (c : string) :
  world (store node (client tr) i b
           {| rows := t; clock := c; outage := None |})
  = {| rows := upsert_into {| id := i;
                              binary_state := Node.base64_encode b;
                              stamp := c |} t;
       clock := c; outage := None |}.
Proof. rewrite store_world. reflexivity. Qed.

Lemma store_db_rows (tr : transport) (i : string) (b : bytes) (w : db) :
  rows (world (store node (client tr) i b w))
  = match outage w with
    | None => upsert_into {| id := i;
                             binary_state := Node.base64_encode b;
                             stamp := clock w |} (rows w)
    | Some _ => rows w
    end.
Proof.
  rewrite store_world. destruct w as [t c [[e|n]|]]; reflexivity.
Qed.

Lemma fetch_db_world (tr : transport) (i : string) (w : db) :
  world (fetch node (client tr) i w) = w.
Proof.
  rewrite fetch_world. cbn. unfold db_select.
  destruct (outage w) as [[e|n]|]; try reflexivity.
  destruct (rows_for i (rows w)) as [|r [|r' l]]; reflexivity.
Qed.

Lemma db_select_row (tr : transport) (i c : string) (t : table) (r : row) :
  rows_for i t = [r] ->
  select_single (client tr) i {| rows := t; clock := c; outage := None |}
  = ({| rows := t; clock := c; outage := None |},
     Normal {| data := Some {| ydoc_state := surface tr (binary_state r) |};
               error := None |}).
Proof.
  intros H. cbn [select_single client]. unfold db_select.
  cbn [outage rows]. rewrite H. reflexivity.
Qed.

Lemma db_select_none (tr : transport) (i c : string) (t : table) :
  rows_for i t = [] ->
  select_single (client tr) i {| rows := t; clock := c; outage := None |}
  = ({| rows := t; clock := c; outage := None |},
     Normal {| data := None; error := Some no_rows |}).
Proof.
  intros H. cbn [select_single client]. unfold db_select.
  cbn [outage rows]. rewrite H. reflexivity.
Qed.

(** What [fetch] makes of the one row of a document. *)
Lemma fetch_stored_row (tr : transport) (i c s : string) (t : table) (b : bytes) :
  rows_for i t = [{| id := i; binary_state := Node.base64_encode b;
                     stamp := s |}] ->
  fetch_outcome
    (result (fetch node (client tr) i
               {| rows := t; clock := c; outage := None |}))
  = match tr, b with
    | AsWritten, [] => NotFound
    | _, _ => Found b
    end.
Proof.
  intros H. pose proof (db_select_row tr i c t _ H) as Hq.
  cbn [binary_state] in Hq.
  destruct tr.
  - destruct b as [|x l].
    + now rewrite (fetch_no_data node _ i _ _ _ Hq _ eq_refl eq_refl eq_refl).
    + rewrite (fetch_decodes node _ i _ _ _ Hq _ eq_refl eq_refl
                 (encode_nonempty x l)).
      cbn [ydoc_state result]. now rewrite base64_text_decoded.
  - rewrite (fetch_decodes node _ i _ _ _ Hq _ eq_refl eq_refl eq_refl).
    cbn [ydoc_state result surface]. rewrite escaped_text_decoded.
    destruct b; reflexivity.
Qed.

Lemma reachable_unique (tr : transport) (w : db) : reachable tr w -> unique_ids (rows w).
Proof.
  induction 1 as [t o|w t o _ IH|w i b _ IH|w i _ IH].
  - apply unique_empty.
  - exact IH.
  - rewrite store_db_rows. destruct (outage w); [exact IH|].
    now apply unique_upsert.
  - now rewrite fetch_db_world.
Qed.

End OverTheTable.

(** ** A concrete run *)

(** Bytes stored for one ticket are found again, in either form of the
    column; another ticket is not found; a store that fails during an
    outage writes no row, and its ticket is not found afterwards. *)
Example ticket_scenario :
  let b := [x00; x01; x02; xfd; xfe; xff] in
  let start := {| Supabase.rows := []; Supabase.clock := "t0";
                  Supabase.outage := None |} in
  let down (w : Supabase.db) :=
    {| Supabase.rows := Supabase.rows w; Supabase.clock := "t1";
       Supabase.outage := Some (PostgrestError connection_failure) |} in
  forall tr,
    let cl := Supabase.client tr in
    let w1 := world (store node cl "ticket-42" b start) in
    let failed := store node cl "ticket-43" b (down w1) in
    let w2 := Supabase.at_time "t2"
                {| Supabase.rows := Supabase.rows (world failed);
                   Supabase.clock := "t1"; Supabase.outage := None |} in
    fetch_outcome (result (fetch node cl "ticket-42" w1)) = Found b
    /\ fetch_outcome (result (fetch node cl "ticket-missing" w1)) = NotFound
    /\ result failed = Throw (PostgrestError connection_failure)
    /\ fetch_outcome (result (fetch node cl "ticket-43" w2)) = NotFound.
Proof. intros b start down tr. destruct tr; vm_compute; auto. Qed.

(** * The claims *)

Section Claims.
Import Supabase TableFacts.

(** C1, as stated, fails at the empty sequence: [store] writes the
    empty text for it, and [fetch], answered with a row holding that
    text, prints that there is no document data and resolves to [null];
    the text never reaches the base64 branch and the empty bytes are not
    returned. *)
Lemma empty_text_never_decoded :
  let q := Normal {| data := Some {| ydoc_state :=
                                       JString (Node.base64_encode []) |};
                     error := None |} in
  to_base64 node [] = Normal []
  /\ fetch node (answering q (Normal None)) "ticket-42" tt =
       {| world := tt;
          console := [Fetching "ticket-42"; QueryResult true false None;
                      NoDocumentData "ticket-42"];
          result := Normal None |}
  /\ fetch_outcome
       (result (fetch node (answering q (Normal None)) "ticket-42" tt))
     <> Found [].
Proof.
  cbv zeta. split; [reflexivity|]. split; [reflexivity|].
  vm_compute. discriminate.
Qed.

(** C1, amended. Round trip of the encoding chosen on write: [store]
    hands the client the base64 text of the bytes; [fetch], answered
    with a row holding that text, takes it for every non-empty byte
    sequence through the base64 branch, and through no other, back to
    the same bytes.  The text of the empty sequence is the empty string,
    which [fetch] classes as absent before any branch of the decoder. *)
Theorem stored_text_round_trip :
  forall (W : Type) (cl : Client W) (i : string) (w w' : W) (b : bytes),
    select_single cl i w
      = (w', Normal {| data := Some {| ydoc_state :=
                                         JString (Node.base64_encode b) |};
                       error := None |}) ->
    (forall w0,
       world (store node cl i b w0) =
         fst (upsert cl {| ticket_id := i;
                           ydoc_state_text := Node.base64_encode b;
                           updated_at := now cl w0 |} w0))
    /\ fetch node cl i w =
         {| world := w';
            console :=
              Fetching i :: QueryResult true false None
                :: match b with
                   | [] => [NoDocumentData i]
                   | _ :: _ =>
                       [DataType TString
                          (Some (substring0 50 (Node.base64_encode b)));
                        Loaded i ViaBase64 (length b)]
                   end;
            result := Normal match b with
                             | [] => None
                             | _ :: _ => Some b
                             end |}.
Proof.
  intros W cl i w w' b Hq. split.
  - intros w0. apply store_world.
  - destruct b as [|x l].
    + now rewrite (fetch_no_data node cl i w w' _ Hq _ eq_refl eq_refl
                     eq_refl).
    + rewrite (fetch_decodes node cl i w w' _ Hq _ eq_refl eq_refl
                 (encode_nonempty x l)).
      cbn [ydoc_state]. now rewrite base64_text_decoded.
Qed.

Lemma stored_text_round_trip_witness :
  let b := [x00; x01; x02; xfd; xfe; xff] in
  let r := {| data := Some {| ydoc_state := JString (Node.base64_encode b) |};
              error := None |} in
  let cl := answering (Normal r) (Normal None) in
  select_single cl "ticket-42" tt = (tt, Normal r)
  /\ result (fetch node cl "ticket-42" tt) = Normal (Some b).
Proof.
  cbv zeta. split; [reflexivity|].
  destruct (stored_text_round_trip unit
              (answering
                 (Normal {| data := Some {| ydoc_state := JString
                     (Node.base64_encode [x00; x01; x02; xfd; xfe; xff]) |};
                            error := None |}) (Normal None))
              "ticket-42" tt tt [x00; x01; x02; xfd; xfe; xff] eq_refl)
    as [_ E].
  rewrite E. reflexivity.
Defined.

(** C2, as stated, fails: when the query reports a connection failure,
    [fetch] does not fail with that cause; it resolves to [null]. *)
Lemma fetch_other_error_not_failed :
  let q := Normal {| data := None; error := Some connection_failure |} in
  String.eqb (code connection_failure) PGRST116 = false
  /\ fetch_outcome
       (result (fetch node (answering q (Normal None)) "ticket-43" tt))
     <> Failed (PostgrestError connection_failure)
  /\ fetch_outcome
       (result (fetch node (answering q (Normal None)) "ticket-43" tt))
     = NotFound.
Proof.
  cbv zeta. split; [reflexivity|]. split.
  - vm_compute. discriminate.
  - reflexivity.
Qed.

(** C2, amended. When the query reports an error other than the
    not-found code, [fetch] prints the cause (twice: before throwing it
    and on catching it), runs no branch of the decoder, whatever the
    response carries as data, and resolves to [null], the same outcome as
    for a missing row; the cause is not part of the result. *)
Theorem fetch_other_error_is_absent :
  forall (W : Type) (rt : Runtime) (cl : Client W) (i : string)
         (w w' : W) (r : select_response) (e : pg_error),
    select_single cl i w = (w', Normal r) ->
    error r = Some e ->
    String.eqb (code e) PGRST116 = false ->
    fetch rt cl i w =
      {| world := w';
         console := [Fetching i;
                     QueryResult (is_some (data r)) true (Some (code e));
                     FetchFailed i (PostgrestError e);
                     FetchFailed i (PostgrestError e)];
         result := Normal None |}
    /\ fetch_outcome (result (fetch rt cl i w)) = NotFound.
Proof.
  intros W rt cl i w w' r e Hq He Hc.
  rewrite (fetch_other_error rt cl i w w' r Hq e He Hc).
  split; reflexivity.
Qed.

Lemma fetch_other_error_is_absent_witness :
  let r := {| data := Some {| ydoc_state := JString (lit "QUJD") |};
              error := Some connection_failure |} in
  let cl := answering (Normal r) (Normal None) in
  select_single cl "ticket-43" tt = (tt, Normal r)
  /\ error r = Some connection_failure
  /\ String.eqb (code connection_failure) PGRST116 = false
  /\ fetch_outcome (result (fetch node cl "ticket-43" tt)) = NotFound.
Proof.
  cbv zeta.
  split; [reflexivity|]. split; [reflexivity|]. split; [reflexivity|].
  apply (fetch_other_error_is_absent unit node
           (answering
              (Normal {| data := Some {| ydoc_state := JString (lit "QUJD") |};
                         error := Some connection_failure |})
              (Normal None))
           "ticket-43" tt tt
           {| data := Some {| ydoc_state := JString (lit "QUJD") |};
              error := Some connection_failure |}
           connection_failure); reflexivity.
Defined.

(** C3, at the failing input.  A missing row and a row with a null
    column both give [NotFound]; a row whose column is present but is not
    hexadecimal text after the prefix, the prefix followed by ZZ, does
    not: the conversions of the runtime do not throw on it, the [catch]
    that would return [null] is not entered, and [fetch] returns an
    empty byte sequence. *)
Lemma undecodable_column_found :
  let row v := Normal {| data := Some {| ydoc_state := v |};
                         error := None |} in
  let outcome q :=
    fetch_outcome
      (result (fetch node (answering q (Normal None)) "ticket-42" tt)) in
  outcome (Normal {| data := None; error := Some no_rows |}) = NotFound
  /\ outcome (row JNull) = NotFound
  /\ hex_text (lit "ZZ") = false
  /\ outcome (row (JString (bsx ++ lit "ZZ"))) = Found []
  /\ outcome (row (JString (bsx ++ lit "ZZ"))) <> NotFound.
Proof.
  cbv zeta. split; [reflexivity|]. split; [reflexivity|].
  split; [reflexivity|]. split; [reflexivity|].
  vm_compute. discriminate.
Qed.

(** C4, as stated, fails at the empty sequence: its escaped form is
    the bare prefix, a non-empty string, from which [fetch] returns the
    empty bytes; its plain base64 form is the empty string, for which
    [fetch] resolves to [null]. *)
Lemma empty_forms_read_apart :
  let row s := Normal {| data := Some {| ydoc_state := JString s |};
                         error := None |} in
  let outcome q :=
    fetch_outcome
      (result (fetch node (answering q (Normal None)) "ticket-42" tt)) in
  let plain := Node.base64_encode [] in
  let escaped := bsx ++ Node.hex_encode (char_codes plain) in
  outcome (row escaped) = Found []
  /\ outcome (row plain) = NotFound
  /\ outcome (row escaped) <> outcome (row plain).
Proof.
  cbv zeta. split; [reflexivity|]. split; [reflexivity|].
  vm_compute. discriminate.
Qed.

(** C4, amended. Tolerance of the escaped form: for every non-empty
    byte sequence, [fetch] answered with a row whose column is the
    two-character prefix followed by the hexadecimal text of the bytes
    of its base64 text returns, through the hexadecimal branch, the same
    bytes as when it is answered with a row holding the plain base64
    text, read through the base64 branch: the original bytes.  For the
    empty sequence the escaped form gives the empty bytes and the plain
    form gives [null]. *)
Theorem escaped_and_plain_read_alike :
  forall (W : Type) (cl : Client W) (i : string) (w w' : W) (b : bytes)
         (escaped : bool),
    let plain := Node.base64_encode b in
    let column := if escaped
                  then bsx ++ Node.hex_encode (char_codes plain)
                  else plain in
    select_single cl i w
      = (w', Normal {| data := Some {| ydoc_state := JString column |};
                       error := None |}) ->
    world (fetch node cl i w) = w'
    /\ fetch_outcome (result (fetch node cl i w))
       = (if escaped then Found b
          else match b with
               | [] => NotFound
               | _ :: _ => Found b
               end)
    /\ In (if escaped then Loaded i ViaHexBase64 (length b)
           else match b with
                | [] => NoDocumentData i
                | _ :: _ => Loaded i ViaBase64 (length b)
                end)
          (console (fetch node cl i w)).
Proof.
  intros W cl i w w' b escaped plain column Hq. subst plain column.
  destruct escaped.
  - rewrite (fetch_decodes node cl i w w' _ Hq _ eq_refl eq_refl eq_refl).
    cbn [ydoc_state]. rewrite escaped_text_decoded. cbn.
    split; [reflexivity|]. split; [reflexivity|]. tauto.
  - destruct b as [|x l].
    + rewrite (fetch_no_data node cl i w w' _ Hq _ eq_refl eq_refl eq_refl).
      cbn. split; [reflexivity|]. split; [reflexivity|]. tauto.
    + rewrite (fetch_decodes node cl i w w' _ Hq _ eq_refl eq_refl
                 (encode_nonempty x l)).
      cbn [ydoc_state]. rewrite base64_text_decoded. cbn.
      split; [reflexivity|]. split; [reflexivity|]. tauto.
Qed.

Lemma escaped_and_plain_read_alike_witness :
  let b := [x00; x01; x02; xfd; xfe; xff] in
  let column := bsx ++ Node.hex_encode (char_codes (Node.base64_encode b)) in
  let r := {| data := Some {| ydoc_state := JString column |};
              error := None |} in
  let cl := answering (Normal r) (Normal None) in
  select_single cl "ticket-42" tt = (tt, Normal r)
  /\ fetch_outcome (result (fetch node cl "ticket-42" tt)) = Found b.
Proof.
  cbv zeta. split; [reflexivity|].
  exact (proj1 (proj2
           (escaped_and_plain_read_alike unit
              (answering
                 (Normal {| data := Some {| ydoc_state := JString
                     (bsx ++ Node.hex_encode
                        (char_codes
                           (Node.base64_encode
                              [x00; x01; x02; xfd; xfe; xff]))) |};
                            error := None |}) (Normal None))
              "ticket-42" tt tt [x00; x01; x02; xfd; xfe; xff] true
              eq_refl))).
Defined.

(** C5, at the failing input.  The column value made of the escape
    prefix and the two letters ZZ is present and is not hexadecimal
    text.  The decoder wraps its conversions in [try]/[catch] to return
    [null] when decoding fails, but the conversions of the runtime do
    not throw on this text: no [catch] is entered, the decoder makes an
    empty byte sequence of it, and [fetch] returns that instead of
    absence. *)
Lemma malformed_hex_not_absent :
  let v := JString (bsx ++ lit "ZZ") in
  let q := Normal {| data := Some {| ydoc_state := v |}; error := None |} in
  truthy v = true
  /\ hex_text (lit "ZZ") = false
  /\ result (decode_column node "ticket-42" v tt) = Normal (Some [])
  /\ result (decode_column node "ticket-42" v tt) <> Normal None
  /\ fetch_outcome
       (result (fetch node (answering q (Normal None)) "ticket-42" tt))
     = Found [].
Proof.
  cbv zeta. split; [reflexivity|]. split; [reflexivity|].
  split; [reflexivity|]. split; [|reflexivity].
  vm_compute. discriminate.
Qed.

(** C6. An upsert that ends with an error, reported in the response or
    as a rejection, makes [store] reject with that very cause, after
    printing it; [store] never resolves in that case. *)
Theorem store_surfaces_upsert_error :
  forall (W : Type) (cl : Client W) (i : string) (b : bytes)
         (w w' : W) (c : completion (option pg_error)) (cause : exn),
    upsert cl {| ticket_id := i;
                 ydoc_state_text := Node.base64_encode b;
                 updated_at := now cl w |} w = (w', c) ->
    upsert_cause c = Some cause ->
    result (store node cl i b w) = Throw cause
    /\ world (store node cl i b w) = w'
    /\ In (StoreFailed i cause) (console (store node cl i b w))
    /\ ~ In (Stored i) (console (store node cl i b w))
    /\ store_outcome (result (store node cl i b w)) = StoreFailedWith cause.
Proof.
  intros W cl i b w w' c cause Hu Hc.
  unfold store, try_catch, bind, lift, log, ret, read, await, throw; cbn.
  rewrite Hu.
  destruct c as [[e|]|e]; cbn in Hc; inversion Hc; subst; cbn.
  - split; [reflexivity|]. split; [reflexivity|]. split; [tauto|].
    split; [|reflexivity].
    intros [H|[H|[H|[H|[]]]]]; discriminate H.
  - split; [reflexivity|]. split; [reflexivity|]. split; [tauto|].
    split; [|reflexivity].
    intros [H|[H|[H|[]]]]; discriminate H.
Qed.

Lemma store_surfaces_upsert_error_witness :
  let cl := answering (Throw (JsError "unused"))
              (Normal (Some connection_failure)) in
  let b := [x00; x01; x02; xfd; xfe; xff] in
  upsert_cause (Normal (Some connection_failure))
    = Some (PostgrestError connection_failure)
  /\ result (store node cl "ticket-43" b tt)
     = Throw (PostgrestError connection_failure).
Proof.
  cbv zeta. split; [reflexivity|].
  apply (store_surfaces_upsert_error unit
           (answering (Throw (JsError "unused"))
              (Normal (Some connection_failure)))
           "ticket-43" [x00; x01; x02; xfd; xfe; xff] tt tt
           (Normal (Some connection_failure))
           (PostgrestError connection_failure)); reflexivity.
Defined.

(** C7, as stated, fails when the second snapshot is empty and the
    client surfaces the column as it was written: the row then holds the
    empty text, and [fetch] resolves to [null] instead of the empty
    bytes. *)
Lemma empty_second_store_not_found :
  let cl := client AsWritten in
  let w := {| rows := []; clock := "t0"; outage := None |} in
  let w1 := world (store node cl "ticket-42" [x01] w) in
  let w2 := world (store node cl "ticket-42" [] w1) in
  fetch_outcome (result (fetch node cl "ticket-42" w2)) = NotFound
  /\ fetch_outcome (result (fetch node cl "ticket-42" w2)) <> Found [].
Proof.
  cbv zeta. split; [reflexivity|]. vm_compute. discriminate.
Qed.

(** C7, amended. After [store(id, b1)] and then [store(id, b2)], both
    successful, the table is what a single [store(id, b2)] would have
    left, with no trace of [b1], and [fetch(id)] yields [Found b2],
    except that an empty [b2] surfaced as it was written yields
    [NotFound]. *)
Theorem second_store_replaces_first :
  forall (tr : transport) (t : table) (c c1 c2 i : string)
         (b1 b2 : bytes),
    unique_ids t ->
    let cl := client tr in
    let w := {| rows := t; clock := c; outage := None |} in
    let w1 := at_time c1 (world (store node cl i b1 w)) in
    let w2 := at_time c2 (world (store node cl i b2 w1)) in
    fetch_outcome (result (fetch node cl i w2))
      = match tr, b2 with
        | AsWritten, [] => NotFound
        | _, _ => Found b2
        end
    /\ rows w2 = rows (world (store node cl i b2 (at_time c1 w))).
Proof.
  intros tr t c c1 c2 i b1 b2 U cl w w1 w2.
  subst cl w w1 w2. rewrite store_db. unfold at_time at 2 4.
  cbn [rows clock outage]. rewrite !store_db.
  unfold at_time. cbn [rows clock outage]. split.
  - apply (fetch_stored_row tr i c2 c1).
    apply (rows_for_upsert_same
             {| id := i; binary_state := Node.base64_encode b2;
                stamp := c1 |}).
    now apply unique_upsert.
  - now apply upsert_twice.
Qed.

Lemma second_store_replaces_first_witness :
  let cl := client AsEscapedHex in
  let w := {| rows := []; clock := "t0"; outage := None |} in
  let w1 := at_time "t1" (world (store node cl "ticket-42" [x01; x02] w)) in
  let w2 := at_time "t2" (world (store node cl "ticket-42" [xfe; xff] w1)) in
  unique_ids []
  /\ fetch_outcome (result (fetch node cl "ticket-42" w2)) = Found [xfe; xff].
Proof.
  cbv zeta. split; [apply unique_empty|].
  apply (second_store_replaces_first AsEscapedHex [] "t0" "t1" "t2"
           "ticket-42" [x01; x02] [xfe; xff] unique_empty).
Defined.

(** C8. In every state the table can reach, each document identifier
    has at most one row, and every [store] keeps it so.  A successful
    [store] leaves exactly one row for its identifier, holding the
    encoded bytes; storing the same pair again keeps the number of rows
    and the content of each, and renews only the time stamp. *)
Theorem one_row_per_document :
  forall (tr : transport) (w : db),
    reachable tr w ->
    unique_ids (rows w)
    /\ (forall i b, unique_ids (rows (world (store node (client tr) i b w))))
    /\ (forall i b c1,
          let ok := {| rows := rows w; clock := clock w; outage := None |} in
          let w1 := world (store node (client tr) i b ok) in
          let w2 := world (store node (client tr) i b (at_time c1 w1)) in
          rows_for i (rows w1)
            = [{| id := i; binary_state := Node.base64_encode b;
                  stamp := clock w |}]
          /\ rows_for i (rows w2)
             = [{| id := i; binary_state := Node.base64_encode b;
                   stamp := c1 |}]
          /\ length (rows w2) = length (rows w1)
          /\ map content (rows w2) = map content (rows w1)).
Proof.
  intros tr w R. pose proof (reachable_unique tr w R) as U.
  split; [exact U|]. split.
  - intros i b. apply (reachable_unique tr). now constructor.
  - intros i b c1 ok w1 w2. subst ok w1 w2.
    rewrite store_db. unfold at_time. cbn [rows clock outage].
    rewrite store_db. cbn [rows].
    set (r1 := {| id := i; binary_state := Node.base64_encode b;
                  stamp := clock w |}).
    set (r2 := {| id := i; binary_state := Node.base64_encode b;
                  stamp := c1 |}).
    assert (U1 : unique_ids (upsert_into r1 (rows w)))
      by now apply unique_upsert.
    assert (F1 : rows_for i (upsert_into r1 (rows w)) = [r1])
      by now apply (rows_for_upsert_same r1).
    split; [exact F1|]. split; [now apply (rows_for_upsert_same r2)|].
    assert (E : existsb (has_id (id r2)) (upsert_into r1 (rows w)) = true)
      by apply (existsb_upsert r1).
    split; [now apply length_upsert_present|].
    unfold upsert_into at 1. rewrite E. rewrite map_map.
    apply map_ext_in. intros a Ha.
    destruct (has_id (id r2) a) eqn:Hid; [|reflexivity].
    assert (Hin : In a (rows_for i (upsert_into r1 (rows w))))
      by (apply filter_In; auto).
    rewrite F1 in Hin. destruct Hin as [<-|[]]. reflexivity.
Qed.

Lemma one_row_per_document_witness :
  let w := world (store node (client AsWritten) "ticket-42"
                    [x00; x01; x02; xfd; xfe; xff]
                    {| rows := []; clock := "t0"; outage := None |}) in
  reachable AsWritten w /\ unique_ids (rows w).
Proof.
  cbv zeta.
  assert (R : reachable AsWritten
                (world (store node (client AsWritten) "ticket-42"
                          [x00; x01; x02; xfd; xfe; xff]
                          {| rows := []; clock := "t0"; outage := None |})))
    by (apply reach_store, reach_empty).
  split; [exact R|].
  apply (one_row_per_document AsWritten _ R).
Defined.

(** C9, as stated, fails: the one-character string U+0100 neither
    starts with the prefix nor passes the base64 test, and the decoder
    returns the single byte 0, which is not the code point 256. *)
Lemma raw_branch_truncates :
  startsWith bsx [256] = false
  /\ isBase64 [256] = false
  /\ result (decode_column node "ticket-42" (JString [256]) tt)
     = Normal (Some [x00])
  /\ Byte.to_N x00 <> 256.
Proof.
  split; [reflexivity|]. split; [reflexivity|]. split; [reflexivity|].
  vm_compute. discriminate.
Qed.

(** C9, amended. For every string that neither starts with the prefix
    nor passes the base64 test, the decoder returns as many bytes as the
    string has code units, and the byte at each position is the code
    unit at that position modulo 256: the code unit itself when it is
    below 256. *)
Theorem raw_branch_low_bytes :
  forall (W : Type) (rt : Runtime) (i : string) (s : jsstring) (w : W),
    startsWith bsx s = false ->
    isBase64 s = false ->
    result (decode_column rt i (JString s) w) = Normal (Some (char_codes s))
    /\ In (Loaded i ViaRaw (length s))
          (console (decode_column rt i (JString s) w))
    /\ length (char_codes s) = length s
    /\ (forall k c, nth_error s k = Some c ->
          option_map Byte.to_N (nth_error (char_codes s) k)
            = Some (c mod 256))
    /\ (Forall (fun c => c < 256) s -> map Byte.to_N (char_codes s) = s).
Proof.
  intros W rt i s w Hp Hb.
  rewrite decode_column_string, (decode_string_raw rt i s w Hp Hb). cbn.
  unfold char_codes. rewrite length_map.
  split; [reflexivity|]. split; [auto|]. split; [reflexivity|]. split.
  - intros k c Hk. rewrite nth_error_map, Hk. cbn.
    now rewrite to_N_ToUint8.
  - clear Hp Hb. induction 1 as [|c l Hc Hl IH]; [reflexivity|].
    cbn [map]. rewrite to_N_ToUint8, N.mod_small by exact Hc.
    f_equal. apply IH.
Qed.

Lemma raw_branch_low_bytes_witness :
  let s := [104; 233; 8364; 33] in
  startsWith bsx s = false
  /\ isBase64 s = false
  /\ result (decode_column node "ticket-42" (JString s) tt)
     = Normal (Some (char_codes s)).
Proof.
  cbv zeta. split; [reflexivity|]. split; [reflexivity|].
  apply (raw_branch_low_bytes unit node "ticket-42" [104; 233; 8364; 33] tt);
    reflexivity.
Defined.

(** C10, as stated, fails when the client surfaces the column in
    escaped hexadecimal: the empty text then reads as the bare prefix, a
    non-empty string, and [fetch] after [store] of the empty sequence
    returns the empty bytes, not [null]. *)
Lemma empty_snapshot_found_when_escaped :
  let cl := client AsEscapedHex in
  let w := {| rows := []; clock := "t0"; outage := None |} in
  let w1 := world (store node cl "ticket-42" [] w) in
  fetch_outcome (result (fetch node cl "ticket-42" w1)) = Found []
  /\ fetch_outcome (result (fetch node cl "ticket-42" w1)) <> NotFound.
Proof.
  cbv zeta. split; [reflexivity|]. vm_compute. discriminate.
Qed.

(** C10, amended. [store] writes the empty text for the empty byte
    sequence.  A client that surfaces the column as written then answers
    [fetch] with a row whose column is the empty string, which [fetch]
    classes as absent before any branch of the decoder runs: the outcome
    is [NotFound], as for a document that has no row.  A client that
    surfaces the column in escaped hexadecimal answers with the bare
    prefix, which the hexadecimal branch reads as the empty bytes: the
    outcome is [Found] of no bytes. *)
Theorem empty_snapshot_by_transport :
  forall (tr : transport) (t : table) (c c1 i : string),
    unique_ids t ->
    let cl := client tr in
    let w := {| rows := t; clock := c; outage := None |} in
    let w1 := at_time c1 (world (store node cl i [] w)) in
    to_base64 node [] = Normal []
    /\ rows_for i (rows w1) = [{| id := i; binary_state := []; stamp := c |}]
    /\ fetch node cl i w1 =
         {| world := w1;
            console :=
              Fetching i :: QueryResult true false None
                :: match tr with
                   | AsWritten => [NoDocumentData i]
                   | AsEscapedHex =>
                       [DataType TString (Some bsx); HexToBase64 0;
                        Base64Preview []; Loaded i ViaHexBase64 0;
                        FirstBytes []]
                   end;
            result := Normal match tr with
                             | AsWritten => None
                             | AsEscapedHex => Some []
                             end |}
    /\ (forall t', rows_for i t' = [] ->
          fetch_outcome
            (result (fetch node cl i
                       {| rows := t'; clock := c1; outage := None |}))
          = NotFound).
Proof.
  intros tr t c c1 i U cl w w1. subst cl w w1.
  rewrite store_db. unfold at_time. cbn [rows clock outage].
  set (r := {| id := i; binary_state := Node.base64_encode [];
               stamp := c |}).
  assert (F : rows_for i (upsert_into r t) = [r])
    by now apply (rows_for_upsert_same r).
  pose proof (db_select_row tr i c1 _ _ F) as Hq.
  split; [reflexivity|]. split; [exact F|]. split.
  - destruct tr.
    + now rewrite (fetch_no_data node _ i _ _ _ Hq _ eq_refl eq_refl
                     eq_refl).
    + now rewrite (fetch_decodes node _ i _ _ _ Hq _ eq_refl eq_refl
                     eq_refl).
  - intros t' Ht'.
    pose proof (db_select_none tr i c1 t' Ht') as Hn.
    now rewrite (fetch_row_not_found node _ i _ _ _ Hn no_rows eq_refl
                   eq_refl).
Qed.

Lemma empty_snapshot_by_transport_witness :
  let cl := client AsWritten in
  let w := {| rows := []; clock := "t0"; outage := None |} in
  let w1 := at_time "t1" (world (store node cl "ticket-42" [] w)) in
  unique_ids []
  /\ result (fetch node cl "ticket-42" w1) = Normal None.
Proof.
  cbv zeta. split; [apply unique_empty|].
  destruct (empty_snapshot_by_transport AsWritten [] "t0" "t1" "ticket-42"
              unique_empty) as (_ & _ & E & _).
  rewrite E. reflexivity.
Defined.

End Claims.

(** * The encodings, further *)

Lemma char_codes_binary_string (b : bytes) :
  char_codes (Web.binary_string b) = b.
Proof.
  unfold char_codes, Web.binary_string. rewrite map_map.
  rewrite <- (map_id b) at 2. apply map_ext. apply ToUint8_to_N.
Qed.

Lemma btoa_binary_string (b : bytes) :
  Web.btoa (Web.binary_string b) = Normal (Node.base64_encode b).
Proof.
  unfold Web.btoa. rewrite char_codes_binary_string.
  replace (forallb (fun c => c <? 256) (Web.binary_string b)) with true;
    [reflexivity|].
  symmetry. apply forallb_forall. intros c Hc.
  apply in_map_iff in Hc as (x & <- & _).
  apply N.ltb_lt, to_N_lt_256.
Qed.

Lemma encode_split (b : bytes) :
  Node.base64_encode b = base64_unpadded b ++ base64_padding b.
Proof.
  induction b as [|x|x y|x y z l IH] using list_ind3; try reflexivity.
  cbn [Node.base64_encode base64_unpadded base64_padding app].
  now rewrite IH.
Qed.

Lemma unpadded_class (b : bytes) :
  forallb b64_class (base64_unpadded b) = true.
Proof.
  induction b as [|x|x y|x y z l IH] using list_ind3;
    [reflexivity| | |];
    pose proof (to_N_lt_256 x); try pose proof (to_N_lt_256 y);
    try pose proof (to_N_lt_256 z);
    cbn [base64_unpadded forallb];
    rewrite ?b64_class_b64char
      by auto using sextet0_lt, sextet1_lt, sextet1_last_lt, sextet2_lt,
                    sextet2_last_lt, sextet3_lt;
    [reflexivity|reflexivity|exact IH].
Qed.

Lemma unpadded_decode (b : bytes) :
  Node.base64_decode (base64_unpadded b) = b.
Proof.
  unfold Node.base64_decode.
  induction b as [|x|x y|x y z l IH] using list_ind3.
  - reflexivity.
  - pose proof (to_N_lt_256 x) as Hx.
    cbn [base64_unpadded].
    rewrite sextets_b64char by now apply sextet0_lt.
    rewrite sextets_b64char by now apply sextet1_last_lt.
    cbn [Node.sextets Node.pack].
    rewrite byte0_last_back, ToUint8_to_N. reflexivity.
  - pose proof (to_N_lt_256 x) as Hx. pose proof (to_N_lt_256 y) as Hy.
    cbn [base64_unpadded].
    rewrite sextets_b64char by now apply sextet0_lt.
    rewrite sextets_b64char by now apply sextet1_lt.
    rewrite sextets_b64char by now apply sextet2_last_lt.
    cbn [Node.sextets Node.pack].
    rewrite byte0_back, byte1_last_back, !ToUint8_to_N by assumption.
    reflexivity.
  - pose proof (to_N_lt_256 x) as Hx. pose proof (to_N_lt_256 y) as Hy.
    pose proof (to_N_lt_256 z) as Hz.
    cbn [base64_unpadded].
    rewrite sextets_b64char by now apply sextet0_lt.
    rewrite sextets_b64char by now apply sextet1_lt.
    rewrite sextets_b64char by now apply sextet2_lt.
    rewrite sextets_b64char by now apply sextet3_lt.
    cbn [Node.pack].
    rewrite byte0_back, byte1_back, byte2_back, !ToUint8_to_N by assumption.
    now rewrite IH.
Qed.

(** Facts on the characters of the class. *)
Lemma class_bounds (c : N) : b64_class c = true -> 43 <= c /\ c <> 61 /\ c <> 92.
Proof.
  unfold b64_class. intros H.
  repeat (apply orb_prop in H; destruct H as [H|H]);
    try (apply andb_prop in H; destruct H as [H1 H2];
         apply N.leb_le in H1; apply N.leb_le in H2; lia);
    apply N.eqb_eq in H; lia.
Qed.

Lemma class_not_pad (c : N) : b64_class c = true -> (c =? 61) = false.
Proof. intros H. apply N.eqb_neq. apply (class_bounds c H). Qed.

Lemma class_not_whitespace (c : N) :
  b64_class c = true -> Web.ascii_whitespace c = false.
Proof.
  intros H. destruct (class_bounds c H) as (Hc & _).
  unfold Web.ascii_whitespace.
  repeat (apply orb_false_intro); apply N.eqb_neq; lia.
Qed.

Lemma class_text_passes (s : jsstring) :
  forallb b64_class s = true -> isBase64 s = true.
Proof.
  induction s as [|c s IH]; [reflexivity|].
  cbn [forallb isBase64]. intros H. apply andb_prop in H as [Hc Hs].
  rewrite Hc. auto.
Qed.

Lemma class_text_no_prefix (s : jsstring) :
  forallb b64_class s = true -> startsWith bsx s = false.
Proof.
  destruct s as [|c s]; [reflexivity|].
  cbn [forallb]. intros H. apply andb_prop in H as [Hc _].
  cbn [startsWith bsx].
  replace (92 =? c) with false; [reflexivity|].
  symmetry. apply N.eqb_neq. intros <-. discriminate Hc.
Qed.

(** A text that starts with the prefix never passes the base64 test. *)
Lemma prefixed_not_base64 (s : jsstring) :
  startsWith bsx s = true -> isBase64 s = false.
Proof.
  destruct s as [|c s]; [discriminate|].
  cbn [startsWith bsx]. intros H. apply andb_prop in H as [Hc _].
  apply N.eqb_eq in Hc. subst c. destruct s as [|d [|e s]]; reflexivity.
Qed.

Lemma strip_padding_class (s p : jsstring) :
  forallb b64_class s = true ->
  p = [] \/ p = [Node.pad] \/ p = [Node.pad; Node.pad] ->
  Web.strip_padding (s ++ p) = s.
Proof.
  intros Hs Hp. unfold Web.strip_padding. rewrite rev_app_distr.
  assert (Hr : forallb b64_class (rev s) = true).
  { apply forallb_forall. intros c Hc. apply in_rev in Hc.
    rewrite forallb_forall in Hs. auto. }
  destruct Hp as [->|[->| ->]]; cbn [rev app Node.pad].
  - rewrite app_nil_r.
    destruct (rev s) as [|a [|b r]] eqn:E; [reflexivity| |];
      cbn [forallb] in Hr; apply andb_prop in Hr as [Ha _];
      rewrite (class_not_pad a Ha); reflexivity.
  - destruct (rev s) as [|b r] eqn:E.
    + cbn. apply (f_equal (@rev N)) in E. rewrite rev_involutive in E.
      now subst.
    + cbn [forallb] in Hr. apply andb_prop in Hr as [Hb _].
      rewrite (class_not_pad b Hb), N.eqb_refl. cbn [andb].
      change (rev r ++ [b]) with (rev (b :: r)).
      rewrite <- E. apply rev_involutive.
  - cbn. apply rev_involutive.
Qed.

Lemma padding_cases (b : bytes) :
  base64_padding b = [] \/ base64_padding b = [Node.pad]
  \/ base64_padding b = [Node.pad; Node.pad].
Proof.
  induction b as [|x|x y|x y z l IH] using list_ind3; cbn; auto.
Qed.

Lemma filter_whitespace_encode (b : bytes) :
  filter (fun c => negb (Web.ascii_whitespace c)) (Node.base64_encode b)
  = Node.base64_encode b.
Proof.
  rewrite encode_split, filter_app. f_equal.
  - pose proof (unpadded_class b) as H. rewrite forallb_forall in H.
    induction (base64_unpadded b) as [|c s IH]; [reflexivity|].
    cbn [filter]. rewrite (class_not_whitespace c) by (apply H; now left).
    cbn. f_equal. apply IH. intros x Hx. apply H. now right.
  - destruct (padding_cases b) as [->|[->| ->]]; reflexivity.
Qed.

Lemma length_encode_mod (b : bytes) :
  (length (Node.base64_encode b) mod 4 =? 0)%nat = true.
Proof.
  induction b as [|x|x y|x y z l IH] using list_ind3; try reflexivity.
  cbn [Node.base64_encode length].
  change (S (S (S (S (length (Node.base64_encode l))))))
    with (4 + length (Node.base64_encode l))%nat.
  rewrite Nat.add_comm.
  change 4%nat with (1 * 4)%nat at 1.
  rewrite Nat.Div0.mod_add. exact IH.
Qed.

Lemma length_unpadded_mod (b : bytes) :
  (length (base64_unpadded b) mod 4 =? 1)%nat = false.
Proof.
  induction b as [|x|x y|x y z l IH] using list_ind3; try reflexivity.
  cbn [base64_unpadded length].
  change (S (S (S (S (length (base64_unpadded l))))))
    with (4 + length (base64_unpadded l))%nat.
  rewrite Nat.add_comm.
  change 4%nat with (1 * 4)%nat at 1.
  rewrite Nat.Div0.mod_add. exact IH.
Qed.

(** [atob] reads the text of the encoder back. *)
Lemma atob_encode (b : bytes) :
  Web.atob (Node.base64_encode b) = Normal (Web.binary_string b).
Proof.
  unfold Web.atob. rewrite filter_whitespace_encode, length_encode_mod.
  rewrite encode_split.
  rewrite strip_padding_class by auto using unpadded_class, padding_cases.
  rewrite length_unpadded_mod, unpadded_class, unpadded_decode.
  reflexivity.
Qed.

Lemma strip_padding_keeps (c : N) (s : jsstring) :
  (c =? 61) = false -> In c s -> In c (Web.strip_padding s).
Proof.
  intros Hc Hin. unfold Web.strip_padding.
  apply in_rev in Hin.
  destruct (rev s) as [|a [|b r]] eqn:E.
  - destruct Hin.
  - destruct (a =? 61) eqn:Ha.
    + destruct Hin as [<-|[]]. congruence.
    + apply in_rev. now rewrite E.
  - destruct ((a =? 61) && (b =? 61)) eqn:Hab.
    + apply andb_prop in Hab as [Ha Hb].
      destruct Hin as [<-|[<-|Hin]]; try congruence.
      now apply in_rev in Hin.
    + destruct (a =? 61) eqn:Ha.
      * destruct Hin as [<-|Hin]; [congruence|]. now apply in_rev in Hin.
      * apply in_rev. now rewrite E.
Qed.

(** [atob] throws on any text that holds a character it refuses. *)
Lemma atob_refusal (c : N) (s : jsstring) :
  In c s -> atob_refuses c = true ->
  Web.atob s = Throw Web.InvalidCharacterError.
Proof.
  intros Hin Hc. unfold atob_refuses in Hc.
  apply andb_prop in Hc as [Hc Hw]. apply andb_prop in Hc as [Hcl Hp].
  apply negb_true_iff in Hcl, Hp.
  unfold Web.atob.
  set (data := filter (fun c => negb (Web.ascii_whitespace c)) s).
  assert (H0 : In c data) by (apply filter_In; auto).
  set (data' := if (length data mod 4 =? 0)%nat
                then Web.strip_padding data else data).
  assert (H1 : In c data').
  { unfold data'. destruct (length data mod 4 =? 0)%nat; [|exact H0].
    now apply strip_padding_keeps. }
  destruct (length data' mod 4 =? 1)%nat; [reflexivity|].
  replace (forallb b64_class data') with false; [reflexivity|].
  symmetry. apply not_true_is_false. intros F.
  rewrite forallb_forall in F. specialize (F c H1). congruence.
Qed.

Lemma length_le_encode (b : bytes) :
  (length b <= length (Node.base64_encode b))%nat.
Proof.
  induction b as [|x|x y|x y z l IH] using list_ind3; cbn in *; lia.
Qed.

(** The text is longer than the bytes it encodes. *)
Lemma length_lt_encode (x : byte) (l : bytes) :
  (length (x :: l) < length (Node.base64_encode (x :: l)))%nat.
Proof.
  destruct l as [|y [|z l]]; cbn; try lia.
  pose proof (length_le_encode l). lia.
Qed.

(** * Further properties of the hooks *)

Section Further.

(** ** The three-branch revision *)

(** X1. [fetch] only queries: in every case (bytes found, nothing
    found, an error reported, the call rejected) the world it leaves is
    the one the single-row query left; it never writes the row it did
    not find. *)
Theorem fetch_only_queries :
  forall (W : Type) (rt : Runtime) (cl : Client W) (i : string) (w : W),
    world (fetch rt cl i w) = fst (select_single cl i w).
Proof. intros. apply fetch_world. Qed.

(** X2. When the call of the client itself rejects, [fetch] prints the
    reason once and resolves to [null]. *)
Theorem fetch_rejection_is_absent :
  forall (W : Type) (rt : Runtime) (cl : Client W) (i : string)
         (w w' : W) (e : exn),
    select_single cl i w = (w', Throw e) ->
    fetch rt cl i w =
      {| world := w';
         console := [Fetching i; FetchFailed i e];
         result := Normal None |}.
Proof.
  intros W rt cl i w w' e Hq.
  unfold fetch, try_catch, bind, await, log. rewrite Hq. reflexivity.
Qed.

Lemma fetch_rejection_is_absent_witness :
  let cl := answering (Throw (JsError "TypeError: fetch failed"))
              (Normal None) in
  select_single cl "ticket-42" tt
    = (tt, Throw (JsError "TypeError: fetch failed"))
  /\ result (fetch node cl "ticket-42" tt) = Normal None.
Proof.
  cbv zeta. split; [reflexivity|].
  rewrite (fetch_rejection_is_absent unit node
             (answering (Throw (JsError "TypeError: fetch failed"))
                (Normal None))
             "ticket-42" tt tt (JsError "TypeError: fetch failed") eq_refl).
  reflexivity.
Defined.

(** X3. [store] issues one upsert, of the base64 text and the time
    read, and ends as that upsert ends: it resolves, after printing the
    success message, exactly when the upsert reports no error, and
    otherwise rejects with the error of the upsert. *)
Theorem store_ends_as_upsert :
  forall (W : Type) (cl : Client W) (i : string) (b : bytes) (w : W),
    let answer := upsert cl {| ticket_id := i;
                               ydoc_state_text := Node.base64_encode b;
                               updated_at := now cl w |} w in
    world (store node cl i b w) = fst answer
    /\ store_outcome (result (store node cl i b w))
       = match upsert_cause (snd answer) with
         | None => StoreOk
         | Some cause => StoreFailedWith cause
         end
    /\ match upsert_cause (snd answer) with
       | None =>
           console (store node cl i b w)
           = [Storing i (length b);
              Encoded (substring0 50 (Node.base64_encode b));
              Stored i]
       | Some cause => In (StoreFailed i cause) (console (store node cl i b w))
       end.
Proof.
  intros W cl i b w answer. subst answer.
  unfold store, try_catch, bind, lift, log, ret, read, await, throw; cbn.
  destruct (upsert cl _ w) as [w' [[e|]|e]]; cbn; auto 6.
Qed.

(** X4. Base64 text without its padding is read like the padded text:
    for every non-empty byte sequence, [fetch] answered with a row
    holding the unpadded text finds that it passes the base64 test and
    decodes it, through the base64 branch, to the bytes it encodes.  (The
    unpadded text of the empty sequence is the empty string, which
    [fetch] classes as absent.) *)
Theorem unpadded_text_found :
  forall (W : Type) (cl : Client W) (i : string) (w w' : W) (b : bytes),
    select_single cl i w
      = (w', Normal {| data := Some {| ydoc_state :=
                                         JString (base64_unpadded b) |};
                       error := None |}) ->
    isBase64 (base64_unpadded b) = true
    /\ fetch node cl i w =
         {| world := w';
            console :=
              Fetching i :: QueryResult true false None
                :: match b with
                   | [] => [NoDocumentData i]
                   | _ :: _ =>
                       [DataType TString
                          (Some (substring0 50 (base64_unpadded b)));
                        Loaded i ViaBase64 (length b)]
                   end;
            result := Normal match b with
                             | [] => None
                             | _ :: _ => Some b
                             end |}.
Proof.
  intros W cl i w w' b Hq.
  pose proof (class_text_passes _ (unpadded_class b)) as Hb.
  split; [exact Hb|].
  destruct b as [|x l].
  - now rewrite (fetch_no_data node cl i w w' _ Hq _ eq_refl eq_refl
                   eq_refl).
  - assert (Hv : truthy (JString (base64_unpadded (x :: l))) = true)
      by (destruct l as [|y [|z l]]; reflexivity).
    rewrite (fetch_decodes node cl i w w' _ Hq _ eq_refl eq_refl Hv).
    cbn [ydoc_state]. rewrite decode_column_string.
    rewrite decode_string_base64
      by auto using class_text_no_prefix, unpadded_class.
    rewrite unpadded_decode. reflexivity.
Qed.

Lemma unpadded_text_found_witness :
  let r := {| data := Some {| ydoc_state :=
                                JString (base64_unpadded [x41; x42]) |};
              error := None |} in
  let cl := answering (Normal r) (Normal None) in
  select_single cl "ticket-42" tt = (tt, Normal r)
  /\ base64_unpadded [x41; x42] = lit "QUI"
  /\ result (fetch node cl "ticket-42" tt) = Normal (Some [x41; x42]).
Proof.
  cbv zeta. split; [reflexivity|]. split; [reflexivity|].
  destruct (unpadded_text_found unit
              (answering
                 (Normal {| data := Some {| ydoc_state :=
                     JString (base64_unpadded [x41; x42]) |};
                            error := None |}) (Normal None))
              "ticket-42" tt tt [x41; x42] eq_refl) as [_ E].
  rewrite E. reflexivity.
Defined.

(** ** The last revision *)

Ltac run_hooks :=
  unfold try_catch, bind, lift, log, ret, read, await, throw.

(** X5. The last revision reads prefixed strings only: when the column
    is a string that starts with the escape prefix it resolves to what
    the three-branch revision resolves to, whatever the runtime; in
    every other case (a buffer, base64 text, any other string or value,
    no row, an error) it resolves to [null].  Like that revision it
    only queries. *)
Theorem hex_only_reads_prefixed_only :
  forall (W : Type) (rt : Runtime) (cl : Client W) (i : string) (w : W),
    result (HexOnly.fetch rt cl i w)
      = (if prefixed_answer (snd (select_single cl i w))
         then result (fetch rt cl i w)
         else Normal None)
    /\ world (HexOnly.fetch rt cl i w) = fst (select_single cl i w).
Proof.
  intros W rt cl i w.
  destruct (select_single cl i w) as [w' [[d e]|x]] eqn:Hq;
    cbn [snd fst prefixed_answer error data].
  - destruct e as [e|].
    + unfold HexOnly.fetch. run_hooks. rewrite Hq. cbn.
      destruct (String.eqb (code e) PGRST116); cbn; auto.
    + destruct d as [[v]|]; cbn [ydoc_state].
      * destruct (truthy v) eqn:Hv.
        -- destruct v as [| | | |s| |]; cbn [truthy] in Hv;
             try discriminate Hv;
             try (unfold HexOnly.fetch, HexOnly.decode_column; run_hooks;
                  rewrite Hq; cbn; try rewrite Hv; cbn; auto; fail).
           destruct (startsWith bsx s) eqn:Hs.
           ++ rewrite (fetch_decodes rt cl i w w' _ Hq _ eq_refl eq_refl Hv).
              cbn [ydoc_state result]. rewrite decode_column_string.
              cbn [result]. unfold decode_string. rewrite Hs.
              unfold HexOnly.fetch, HexOnly.decode_column,
                HexOnly.decode_string.
              run_hooks. rewrite Hq. cbn -[startsWith strip_bsx].
              rewrite Hv, Hs.
              destruct (from_hex rt (strip_bsx s)) as [buf|x]; cbn; auto.
              destruct (to_utf8 rt buf) as [text|x]; cbn; auto.
              destruct (from_base64 rt text) as [b|x]; cbn; auto.
           ++ unfold HexOnly.fetch, HexOnly.decode_column,
                HexOnly.decode_string.
              run_hooks. rewrite Hq. cbn -[startsWith strip_bsx].
              rewrite Hv, Hs. cbn. auto.
        -- assert (P : match v with
                       | JString s => startsWith bsx s
                       | _ => false
                       end = false).
           { destruct v as [| | | |s| |]; try reflexivity.
             destruct s; [reflexivity|discriminate Hv]. }
           rewrite P.
           unfold HexOnly.fetch. run_hooks. rewrite Hq. cbn.
           rewrite Hv. cbn. auto.
      * unfold HexOnly.fetch. run_hooks. rewrite Hq. cbn. auto.
  - unfold HexOnly.fetch. run_hooks. rewrite Hq. cbn. auto.
Qed.

(** X6. [store] of the last revision is the three-branch [store]
    without the message that previews the encoded text: the same upsert,
    the same outcome, otherwise the same console. *)
Theorem hex_only_store_as_before :
  forall (W : Type) (rt : Runtime) (cl : Client W) (i : string)
         (b : bytes) (w : W),
    result (HexOnly.store rt cl i b w) = result (store rt cl i b w)
    /\ world (HexOnly.store rt cl i b w) = world (store rt cl i b w)
    /\ console (HexOnly.store rt cl i b w)
       = filter (fun e => match e with Encoded _ => false | _ => true end)
           (console (store rt cl i b w)).
Proof.
  intros W rt cl i b w.
  unfold HexOnly.store, store. run_hooks. cbn.
  destruct (to_base64 rt b) as [text|x]; cbn; auto.
  destruct (upsert cl _ w) as [w' [[e|]|e]]; cbn; auto.
Qed.

(** X7. In the last revision the base64 text that its own [store]
    writes, read back as it was written, is never found: for every byte
    sequence [fetch] prints that there is no document data and resolves
    to [null].  The same text in escaped hexadecimal form is read back
    to the bytes, silently, the empty sequence included. *)
Theorem hex_only_reads_its_text :
  forall (W : Type) (cl : Client W) (i : string) (w w' : W) (b : bytes)
         (escaped : bool),
    let text := Node.base64_encode b in
    let column := if escaped
                  then bsx ++ Node.hex_encode (char_codes text)
                  else text in
    select_single cl i w
      = (w', Normal {| data := Some {| ydoc_state := JString column |};
                       error := None |}) ->
    HexOnly.fetch node cl i w =
      {| world := w';
         console :=
           [Fetching i; QueryResult true false None]
             ++ (if escaped then [] else [NoDocumentData i]);
         result := Normal (if escaped then Some b else None) |}.
Proof.
  intros W cl i w w' b escaped text column Hq. subst text column.
  unfold HexOnly.fetch, HexOnly.decode_column, HexOnly.decode_string.
  run_hooks. rewrite Hq.
  destruct escaped.
  - cbn -[startsWith strip_bsx Node.hex_decode Node.utf8_decode
          Node.base64_decode app bsx].
    rewrite startsWith_bsx_app, strip_bsx_app, hex_round_trip.
    rewrite utf8_decode_ascii by apply encode_ascii.
    rewrite base64_round_trip. reflexivity.
  - destruct b as [|x l]; [reflexivity|].
    cbn -[startsWith truthy Node.base64_encode].
    rewrite encode_nonempty, encode_no_prefix. reflexivity.
Qed.

Lemma hex_only_reads_its_text_witness :
  let cl := answering
              (Normal {| data := Some {| ydoc_state :=
                  JString (Node.base64_encode [x00; x01; xff]) |};
                         error := None |}) (Normal None) in
  select_single cl "ticket-42" tt
    = (tt, Normal {| data := Some {| ydoc_state :=
                       JString (Node.base64_encode [x00; x01; xff]) |};
                     error := None |})
  /\ result (HexOnly.fetch node cl "ticket-42" tt) = Normal None.
Proof.
  cbv zeta. split; [reflexivity|].
  rewrite (hex_only_reads_its_text unit
             (answering
                (Normal {| data := Some {| ydoc_state :=
                    JString (Node.base64_encode [x00; x01; xff]) |};
                           error := None |}) (Normal None))
             "ticket-42" tt tt [x00; x01; xff] false eq_refl).
  reflexivity.
Defined.

(** ** The first revision *)

Ltac run_trace :=
  unfold Trace.try_catch, Trace.bind, Trace.lift, Trace.log, Trace.ret,
    Trace.read, Trace.await, Trace.throw.

(** What the first revision makes of a row whose column is truthy. *)
Lemma atob_only_row {W} (cl : Client W) (i : string) (w w' : W) (v : jsval) :
  select_single cl i w
    = (w', Normal {| data := Some {| ydoc_state := v |}; error := None |}) ->
  truthy v = true ->
  AtobOnly.fetch cl i w =
    match Web.atob (Web.ToString v) with
    | Normal text =>
        {| Trace.world := w';
           Trace.console := [Shared (Fetching i);
                             DataDump (Some {| ydoc_state := v |});
                             LoadedQuiet i];
           Trace.result := Normal (Some (char_codes text)) |}
    | Throw e =>
        {| Trace.world := w';
           Trace.console := [Shared (Fetching i);
                             DataDump (Some {| ydoc_state := v |});
                             Shared (FetchFailed i e)];
           Trace.result := Normal None |}
    end.
Proof.
  intros Hq Hv. unfold AtobOnly.fetch. run_trace. rewrite Hq.
  cbn -[Web.atob Web.ToString truthy]. rewrite Hv.
  destruct (Web.atob (Web.ToString v)); reflexivity.
Qed.

(** X8. In the first revision a column holding the base64 text of a
    non-empty byte sequence, as its [store] writes it, is read back to
    those bytes. *)
Theorem atob_only_round_trip :
  forall (W : Type) (cl : Client W) (i : string) (w w' : W)
         (x : byte) (l : bytes),
    select_single cl i w
      = (w', Normal {| data := Some {| ydoc_state :=
                                         JString (Node.base64_encode (x :: l)) |};
                       error := None |}) ->
    AtobOnly.fetch cl i w =
      {| Trace.world := w';
         Trace.console :=
           [Shared (Fetching i);
            DataDump (Some {| ydoc_state :=
                                JString (Node.base64_encode (x :: l)) |});
            LoadedQuiet i];
         Trace.result := Normal (Some (x :: l)) |}.
Proof.
  intros W cl i w w' x l Hq.
  rewrite (atob_only_row cl i w w' _ Hq (encode_nonempty x l)).
  cbn [Web.ToString]. rewrite atob_encode, char_codes_binary_string.
  reflexivity.
Qed.

Lemma atob_only_round_trip_witness :
  let v := JString (Node.base64_encode [x00; x01; xff]) in
  let cl := answering (Normal {| data := Some {| ydoc_state := v |};
                                 error := None |}) (Normal None) in
  select_single cl "ticket-42" tt
    = (tt, Normal {| data := Some {| ydoc_state := v |}; error := None |})
  /\ Trace.result (AtobOnly.fetch cl "ticket-42" tt)
     = Normal (Some [x00; x01; xff]).
Proof.
  cbv zeta. split; [reflexivity|].
  rewrite (atob_only_round_trip unit
             (answering
                (Normal {| data := Some {| ydoc_state :=
                    JString (Node.base64_encode [x00; x01; xff]) |};
                           error := None |}) (Normal None))
             "ticket-42" tt tt x00 [x01; xff] eq_refl).
  reflexivity.
Defined.

(** X9. In the first revision a string column that holds a character
    [atob] refuses (outside the base64 alphabet, not '=', not
    whitespace) makes [atob] throw; the exception is caught, printed,
    and [fetch] resolves to [null].  Every column in escaped hexadecimal
    form is such a string: it starts with a backslash. *)
Theorem atob_only_refused_text :
  forall (W : Type) (cl : Client W) (i : string) (w w' : W)
         (s : jsstring) (c : N),
    select_single cl i w
      = (w', Normal {| data := Some {| ydoc_state := JString s |};
                       error := None |}) ->
    In c s ->
    atob_refuses c = true ->
    AtobOnly.fetch cl i w =
      {| Trace.world := w';
         Trace.console :=
           [Shared (Fetching i);
            DataDump (Some {| ydoc_state := JString s |});
            Shared (FetchFailed i Web.InvalidCharacterError)];
         Trace.result := Normal None |}.
Proof.
  intros W cl i w w' s c Hq Hin Hc.
  assert (Hv : truthy (JString s) = true)
    by (destruct s; [destruct Hin|reflexivity]).
  rewrite (atob_only_row cl i w w' _ Hq Hv).
  cbn [Web.ToString]. now rewrite (atob_refusal c s Hin Hc).
Qed.

Lemma atob_only_refused_text_witness :
  let s := bsx ++ Node.hex_encode (char_codes (Node.base64_encode [x41])) in
  let cl := answering (Normal {| data := Some {| ydoc_state := JString s |};
                                 error := None |}) (Normal None) in
  select_single cl "ticket-42" tt
    = (tt, Normal {| data := Some {| ydoc_state := JString s |};
                     error := None |})
  /\ In 92 s
  /\ atob_refuses 92 = true
  /\ Trace.result (AtobOnly.fetch cl "ticket-42" tt) = Normal None.
Proof.
  cbv zeta. split; [reflexivity|]. split; [now left|].
  split; [reflexivity|].
  rewrite (atob_only_refused_text unit
             (answering
                (Normal {| data := Some {| ydoc_state := JString
                    (bsx ++ Node.hex_encode
                              (char_codes (Node.base64_encode [x41]))) |};
                           error := None |}) (Normal None))
             "ticket-42" tt tt
             (bsx ++ Node.hex_encode (char_codes (Node.base64_encode [x41])))
             92 eq_refl (or_introl eq_refl) eq_refl).
  reflexivity.
Defined.

(** ** The second revision *)

(** What the second revision makes of a row whose column is a
    non-empty string. *)
Lemma atob_or_hex_row {W} (cl : Client W) (i : string) (w w' : W)
  (s : jsstring) :
  select_single cl i w
    = (w', Normal {| data := Some {| ydoc_state := JString s |};
                     error := None |}) ->
  truthy (JString s) = true ->
  AtobOrHex.fetch cl i w =
    match (if startsWith bsx s
           then Normal (Web.binary_string (Node.hex_decode (strip_bsx s)))
           else Web.atob s) with
    | Normal text =>
        {| Trace.world := w';
           Trace.console :=
             [Shared (Fetching i); Shared (QueryResult true false None);
              LoadedBytes i (length (char_codes text))];
           Trace.result := Normal (Some (char_codes text)) |}
    | Throw e =>
        {| Trace.world := w';
           Trace.console :=
             [Shared (Fetching i); Shared (QueryResult true false None);
              Shared (DecodingFailed i e)];
           Trace.result := Normal None |}
    end.
Proof.
  intros Hq Hv. unfold AtobOrHex.fetch, AtobOrHex.decode_column.
  run_trace. rewrite Hq.
  cbn -[Web.atob startsWith strip_bsx truthy]. rewrite Hv.
  destruct (startsWith bsx s); [reflexivity|].
  destruct (Web.atob s); reflexivity.
Qed.

(** X10. In the second revision a column holding the base64 text of a
    non-empty byte sequence is read back to those bytes, through
    [atob]. *)
Theorem atob_or_hex_round_trip :
  forall (W : Type) (cl : Client W) (i : string) (w w' : W)
         (x : byte) (l : bytes),
    select_single cl i w
      = (w', Normal {| data := Some {| ydoc_state :=
                                         JString (Node.base64_encode (x :: l)) |};
                       error := None |}) ->
    AtobOrHex.fetch cl i w =
      {| Trace.world := w';
         Trace.console :=
           [Shared (Fetching i); Shared (QueryResult true false None);
            LoadedBytes i (length (x :: l))];
         Trace.result := Normal (Some (x :: l)) |}.
Proof.
  intros W cl i w w' x l Hq.
  rewrite (atob_or_hex_row cl i w w' _ Hq (encode_nonempty x l)).
  rewrite encode_no_prefix, atob_encode, char_codes_binary_string.
  reflexivity.
Qed.

Lemma atob_or_hex_round_trip_witness :
  let v := JString (Node.base64_encode [x00; x01; xff]) in
  let cl := answering (Normal {| data := Some {| ydoc_state := v |};
                                 error := None |}) (Normal None) in
  select_single cl "ticket-42" tt
    = (tt, Normal {| data := Some {| ydoc_state := v |}; error := None |})
  /\ Trace.result (AtobOrHex.fetch cl "ticket-42" tt)
     = Normal (Some [x00; x01; xff]).
Proof.
  cbv zeta. split; [reflexivity|].
  rewrite (atob_or_hex_round_trip unit
             (answering
                (Normal {| data := Some {| ydoc_state :=
                    JString (Node.base64_encode [x00; x01; xff]) |};
                           error := None |}) (Normal None))
             "ticket-42" tt tt x00 [x01; xff] eq_refl).
  reflexivity.
Defined.

(** X11. In the second revision a string column that does not start
    with the escape prefix and holds a character [atob] refuses is not
    read as raw character codes: [atob] throws, the exception is caught
    and printed as a decoding error, and [fetch] resolves to [null]. *)
Theorem atob_or_hex_refused_text :
  forall (W : Type) (cl : Client W) (i : string) (w w' : W)
         (s : jsstring) (c : N),
    select_single cl i w
      = (w', Normal {| data := Some {| ydoc_state := JString s |};
                       error := None |}) ->
    startsWith bsx s = false ->
    In c s ->
    atob_refuses c = true ->
    AtobOrHex.fetch cl i w =
      {| Trace.world := w';
         Trace.console :=
           [Shared (Fetching i); Shared (QueryResult true false None);
            Shared (DecodingFailed i Web.InvalidCharacterError)];
         Trace.result := Normal None |}.
Proof.
  intros W cl i w w' s c Hq Hs Hin Hc.
  assert (Hv : truthy (JString s) = true)
    by (destruct s; [destruct Hin|reflexivity]).
  rewrite (atob_or_hex_row cl i w w' _ Hq Hv), Hs.
  now rewrite (atob_refusal c s Hin Hc).
Qed.

Lemma atob_or_hex_refused_text_witness :
  let s := [104; 233; 33] in
  let cl := answering (Normal {| data := Some {| ydoc_state := JString s |};
                                 error := None |}) (Normal None) in
  select_single cl "ticket-42" tt
    = (tt, Normal {| data := Some {| ydoc_state := JString s |};
                     error := None |})
  /\ startsWith bsx s = false
  /\ In 233 s
  /\ atob_refuses 233 = true
  /\ Trace.result (AtobOrHex.fetch cl "ticket-42" tt) = Normal None.
Proof.
  cbv zeta. split; [reflexivity|]. split; [reflexivity|].
  split; [right; now left|]. split; [reflexivity|].
  rewrite (atob_or_hex_refused_text unit
             (answering
                (Normal {| data := Some {| ydoc_state :=
                                             JString [104; 233; 33] |};
                           error := None |}) (Normal None))
             "ticket-42" tt tt [104; 233; 33] 233 eq_refl eq_refl
             (or_intror (or_introl eq_refl)) eq_refl).
  reflexivity.
Defined.

Lemma length_char_codes (s : jsstring) : length (char_codes s) = length s.
Proof. apply length_map. Qed.

(** The bytes of the text differ from the bytes the text encodes. *)
Lemma text_bytes_differ (x : byte) (l : bytes) :
  char_codes (Node.base64_encode (x :: l)) <> x :: l.
Proof.
  intros E. apply (f_equal (@length byte)) in E.
  unfold char_codes in E. rewrite length_map in E.
  pose proof (length_lt_encode x l). lia.
Qed.

(** X12. In the second revision the escaped hexadecimal form of the
    base64 text of some bytes is read as the hexadecimal text alone: the
    result is the characters of the base64 text, one byte each, and for
    non-empty bytes that is not the bytes that were encoded. *)
Theorem atob_or_hex_escaped_text :
  forall (W : Type) (cl : Client W) (i : string) (w w' : W) (b : bytes),
    let text := Node.base64_encode b in
    select_single cl i w
      = (w', Normal {| data := Some {| ydoc_state :=
                         JString (bsx ++ Node.hex_encode (char_codes text)) |};
                       error := None |}) ->
    AtobOrHex.fetch cl i w =
      {| Trace.world := w';
         Trace.console :=
           [Shared (Fetching i); Shared (QueryResult true false None);
            LoadedBytes i (length text)];
         Trace.result := Normal (Some (char_codes text)) |}
    /\ match b with
       | [] => char_codes text = []
       | _ :: _ => char_codes text <> b
       end.
Proof.
  intros W cl i w w' b text Hq. subst text. split.
  - rewrite (atob_or_hex_row cl i w w' _ Hq eq_refl).
    rewrite startsWith_bsx_app, strip_bsx_app, hex_round_trip.
    rewrite char_codes_binary_string.
    unfold char_codes at 1. rewrite length_map. reflexivity.
  - destruct b as [|x l]; [reflexivity|apply text_bytes_differ].
Qed.

Lemma atob_or_hex_escaped_text_witness :
  let s := bsx ++ Node.hex_encode (char_codes (Node.base64_encode [x41])) in
  let cl := answering (Normal {| data := Some {| ydoc_state := JString s |};
                                 error := None |}) (Normal None) in
  select_single cl "ticket-42" tt
    = (tt, Normal {| data := Some {| ydoc_state := JString s |};
                     error := None |})
  /\ Trace.result (AtobOrHex.fetch cl "ticket-42" tt)
     = Normal (Some (char_codes (lit "QQ=="))).
Proof.
  cbv zeta. split; [reflexivity|].
  destruct (atob_or_hex_escaped_text unit
              (answering
                 (Normal {| data := Some {| ydoc_state := JString
                     (bsx ++ Node.hex_encode
                               (char_codes (Node.base64_encode [x41]))) |};
                            error := None |}) (Normal None))
              "ticket-42" tt tt [x41] eq_refl) as [E _].
  rewrite E. reflexivity.
Defined.

(** ** The third revision *)

(** X13. The third revision and the three-branch revision resolve to
    the same result, whatever the runtime and the client, unless the
    column is a string that starts with the escape prefix: testing for
    base64 first changes nothing for buffers, base64 text, other strings
    and values, missing rows and errors. *)
Theorem base64_first_agrees :
  forall (W : Type) (rt : Runtime) (cl : Client W) (i : string) (w : W),
    prefixed_answer (snd (select_single cl i w)) = false ->
    Trace.result (Base64First.fetch rt cl i w) = result (fetch rt cl i w).
Proof.
  intros W rt cl i w.
  destruct (select_single cl i w) as [w' [[d e]|x]] eqn:Hq;
    cbn [snd fst prefixed_answer error data].
  - destruct e as [e|].
    + intros _. unfold Base64First.fetch, fetch. run_trace. run_hooks.
      rewrite Hq. cbn.
      destruct (String.eqb (code e) PGRST116); reflexivity.
    + destruct d as [[v]|]; cbn [ydoc_state].
      * destruct (truthy v) eqn:Hv.
        -- destruct v as [| | | |s| |]; cbn [truthy] in Hv;
             try discriminate Hv; intros Hs;
             try (unfold Base64First.fetch, Base64First.decode_column,
                    fetch, decode_column;
                  run_trace; run_hooks; rewrite Hq; cbn;
                  try rewrite Hv; reflexivity).
           rewrite (fetch_decodes rt cl i w w' _ Hq _ eq_refl eq_refl Hv).
           cbn [ydoc_state result]. rewrite decode_column_string.
           cbn [result]. unfold decode_string. rewrite Hs.
           unfold Base64First.fetch, Base64First.decode_column,
             Base64First.decode_string.
           run_trace. run_hooks. rewrite Hq.
           cbn -[startsWith strip_bsx isBase64]. rewrite Hv, Hs.
           destruct (isBase64 s); [|reflexivity].
           destruct (from_base64 rt s) as [b|x]; reflexivity.
        -- intros _. unfold Base64First.fetch, fetch. run_trace. run_hooks.
           rewrite Hq. cbn -[truthy]. rewrite Hv. reflexivity.
      * intros _. unfold Base64First.fetch, fetch. run_trace. run_hooks.
        rewrite Hq. reflexivity.
  - intros _. unfold Base64First.fetch, fetch. run_trace. run_hooks.
    rewrite Hq. reflexivity.
Qed.

Lemma base64_first_agrees_witness :
  let v := JString (Node.base64_encode [x00; x01; xff]) in
  let cl := answering (Normal {| data := Some {| ydoc_state := v |};
                                 error := None |}) (Normal None) in
  prefixed_answer (snd (select_single cl "ticket-42" tt)) = false
  /\ Trace.result (Base64First.fetch node cl "ticket-42" tt)
     = Normal (Some [x00; x01; xff]).
Proof.
  cbv zeta. split; [reflexivity|].
  rewrite (base64_first_agrees unit node
             (answering
                (Normal {| data := Some {| ydoc_state :=
                    JString (Node.base64_encode [x00; x01; xff]) |};
                           error := None |}) (Normal None))
             "ticket-42" tt eq_refl).
  reflexivity.
Defined.

(** X14. In the third revision the escaped hexadecimal form of the
    base64 text of some bytes fails the base64 test and is read as the
    hexadecimal text alone: the result is the characters of the base64
    text, one byte each, and for non-empty bytes that is not the bytes
    that were encoded. *)
Theorem base64_first_escaped_text :
  forall (W : Type) (cl : Client W) (i : string) (w w' : W) (b : bytes),
    let text := Node.base64_encode b in
    let column := bsx ++ Node.hex_encode (char_codes text) in
    select_single cl i w
      = (w', Normal {| data := Some {| ydoc_state := JString column |};
                       error := None |}) ->
    Base64First.fetch node cl i w =
      {| Trace.world := w';
         Trace.console :=
           [Shared (Fetching i); Shared (QueryResult true false None);
            Shared (DataType TString (Some (substring0 50 column)));
            TryingHex;
            LoadedHex i (length text)];
         Trace.result := Normal (Some (char_codes text)) |}
    /\ match b with
       | [] => char_codes text = []
       | _ :: _ => char_codes text <> b
       end.
Proof.
  intros W cl i w w' b text column Hq. subst text column. split.
  - unfold Base64First.fetch, Base64First.decode_column,
      Base64First.decode_string.
    run_trace. rewrite Hq.
    cbn -[startsWith strip_bsx isBase64 Node.hex_decode substring0 app bsx].
    rewrite (prefixed_not_base64 _ (startsWith_bsx_app _)).
    rewrite startsWith_bsx_app, strip_bsx_app, hex_round_trip.
    rewrite length_char_codes. reflexivity.
  - destruct b as [|x l]; [reflexivity|apply text_bytes_differ].
Qed.

Lemma base64_first_escaped_text_witness :
  let s := bsx ++ Node.hex_encode (char_codes (Node.base64_encode [x41])) in
  let cl := answering (Normal {| data := Some {| ydoc_state := JString s |};
                                 error := None |}) (Normal None) in
  select_single cl "ticket-42" tt
    = (tt, Normal {| data := Some {| ydoc_state := JString s |};
                     error := None |})
  /\ Trace.result (Base64First.fetch node cl "ticket-42" tt)
     = Normal (Some (char_codes (lit "QQ=="))).
Proof.
  cbv zeta. split; [reflexivity|].
  destruct (base64_first_escaped_text unit
              (answering
                 (Normal {| data := Some {| ydoc_state := JString
                     (bsx ++ Node.hex_encode
                               (char_codes (Node.base64_encode [x41]))) |};
                            error := None |}) (Normal None))
              "ticket-42" tt tt [x41] eq_refl) as [E _].
  rewrite E. reflexivity.
Defined.

(** ** All the other revisions *)

(** X15. [store] of the first two revisions, which builds a binary
    string and encodes it with [btoa], issues the same upsert, of the
    same base64 text, as [store] of the later revisions does through
    [Buffer], and ends the same way. *)
Theorem btoa_stores_as_buffer :
  forall (W : Type) (cl : Client W) (i : string) (b : bytes) (w : W),
    (Trace.result (AtobOnly.store cl i b w) = result (store node cl i b w)
     /\ Trace.world (AtobOnly.store cl i b w) = world (store node cl i b w))
    /\ (Trace.result (AtobOrHex.store cl i b w) = result (store node cl i b w)
        /\ Trace.world (AtobOrHex.store cl i b w)
           = world (store node cl i b w)).
Proof.
  intros W cl i b w.
  unfold AtobOnly.store, AtobOrHex.store, store. run_trace. run_hooks.
  cbn -[Web.btoa Web.binary_string Node.base64_encode].
  rewrite btoa_binary_string.
  destruct (upsert cl _ w) as [w' [[e|]|e]]; cbn; auto.
Qed.

Lemma trace_result_bind_log {E W A} (x : E) (k : Trace.T E W A) (w : W) :
  Trace.result (Trace.bind (Trace.log x) (fun _ => k) w)
  = Trace.result (k w).
Proof. unfold Trace.bind, Trace.log. destruct (k w). reflexivity. Qed.

Lemma trace_try_catch_completes {E W A} (m : Trace.T E W A)
  (h : exn -> Trace.T E W A) (w : W) :
  (forall e w1, exists o, Trace.result (h e w1) = Normal o) ->
  exists o, Trace.result (Trace.try_catch m h w) = Normal o.
Proof.
  intros H. unfold Trace.try_catch.
  destruct (m w) as [w1 l1 [a|e]]; cbn; [eauto|].
  destruct (H e w1) as [o Ho].
  destruct (h e w1) as [w2 l2 c]. cbn in *. eauto.
Qed.

(** X16. No other revision of [fetch] ever rejects, whatever the
    runtime and the client do; and when the query ends with an error,
    reported with any code or thrown, each of them resolves to [null]. *)
Theorem other_revisions_never_reject :
  forall (W : Type) (rt : Runtime) (cl : Client W) (i : string) (w : W),
    ((exists o, Trace.result (AtobOnly.fetch cl i w) = Normal o)
     /\ (exists o, Trace.result (AtobOrHex.fetch cl i w) = Normal o)
     /\ (exists o, Trace.result (Base64First.fetch rt cl i w) = Normal o)
     /\ (exists o, result (HexOnly.fetch rt cl i w) = Normal o))
    /\ (if failed_answer (snd (select_single cl i w))
        then Trace.result (AtobOnly.fetch cl i w) = Normal None
             /\ Trace.result (AtobOrHex.fetch cl i w) = Normal None
             /\ Trace.result (Base64First.fetch rt cl i w) = Normal None
             /\ result (HexOnly.fetch rt cl i w) = Normal None
        else True).
Proof.
  intros W rt cl i w. split.
  - repeat split.
    + unfold AtobOnly.fetch. rewrite trace_result_bind_log.
      apply trace_try_catch_completes. intros e w1. cbn. eauto.
    + unfold AtobOrHex.fetch. rewrite trace_result_bind_log.
      apply trace_try_catch_completes. intros e w1. cbn. eauto.
    + unfold Base64First.fetch. rewrite trace_result_bind_log.
      apply trace_try_catch_completes. intros e w1. cbn. eauto.
    + unfold HexOnly.fetch. rewrite result_bind_log.
      apply try_catch_completes. intros e w1. cbn. eauto.
  - destruct (select_single cl i w) as [w' [[d [e|]]|x]] eqn:Hq;
      cbn [snd failed_answer error is_some]; [|exact I|].
    + unfold AtobOnly.fetch, AtobOrHex.fetch, Base64First.fetch,
        HexOnly.fetch.
      run_trace. run_hooks. rewrite Hq. cbn.
      destruct (String.eqb (code e) PGRST116); cbn; auto.
    + unfold AtobOnly.fetch, AtobOrHex.fetch, Base64First.fetch,
        HexOnly.fetch.
      run_trace. run_hooks. rewrite Hq. cbn. auto.
Qed.

(** ** The three-branch revision: absence and completion *)

(** X17. When the query reports no matching row, when the row's column
    is null, undefined or the empty string, and when the column is
    present but is neither a buffer nor a string, [fetch] resolves to
    the same [null], whatever the runtime and the client. *)
Theorem fetch_absent_cases :
  forall (W : Type) (rt : Runtime) (cl : Client W) (i : string)
         (w w' : W) (r : select_response),
    select_single cl i w = (w', Normal r) ->
    not_found_case r ->
    result (fetch rt cl i w) = Normal None
    /\ world (fetch rt cl i w) = w'
    /\ fetch_outcome (result (fetch rt cl i w)) = NotFound.
Proof.
  intros W rt cl i w w' r Hq Hcase.
  enough (E : result (fetch rt cl i w) = Normal None
              /\ world (fetch rt cl i w) = w').
  { destruct E as [E1 E2]. rewrite E1. auto. }
  destruct Hcase as [e d Hc | v Hv | v Hv Ht Hb].
  - rewrite (fetch_row_not_found rt cl i w w' _ Hq e eq_refl)
      by (apply String.eqb_eq; exact Hc).
    split; reflexivity.
  - rewrite (fetch_no_data rt cl i w w' _ Hq _ eq_refl eq_refl)
      by (destruct Hv as [->|[->| ->]]; reflexivity).
    split; reflexivity.
  - rewrite (fetch_decodes rt cl i w w' _ Hq _ eq_refl eq_refl Hv).
    cbn [ydoc_state world result].
    destruct v as [| | | |s|b|]; try (split; reflexivity).
    + now destruct Ht.
    + now destruct (Hb b).
Qed.

Lemma fetch_absent_cases_witness :
  let q1 := {| data := None; error := Some no_rows |} in
  let q2 := {| data := Some {| ydoc_state := JNull |}; error := None |} in
  let q3 := {| data := Some {| ydoc_state := JNumber 7 |};
               error := None |} in
  (not_found_case q1
   /\ fetch_outcome
        (result (fetch node (answering (Normal q1) (Normal None))
                   "ticket-42" tt)) = NotFound)
  /\ (not_found_case q2
      /\ fetch_outcome
           (result (fetch node (answering (Normal q2) (Normal None))
                      "ticket-42" tt)) = NotFound)
  /\ (not_found_case q3
      /\ fetch_outcome
           (result (fetch node (answering (Normal q3) (Normal None))
                      "ticket-42" tt)) = NotFound).
Proof.
  cbv zeta.
  assert (H1 : not_found_case {| data := None; error := Some no_rows |})
    by (constructor; reflexivity).
  assert (H2 : not_found_case
                 {| data := Some {| ydoc_state := JNull |};
                    error := None |})
    by (apply null_or_empty_column; auto).
  assert (H3 : not_found_case
                 {| data := Some {| ydoc_state := JNumber 7 |};
                    error := None |})
    by (apply unexpected_column;
        [reflexivity|discriminate|intros b; discriminate]).
  split; [|split]; (split; [assumption|]).
  - apply (fetch_absent_cases unit node
             (answering (Normal _) (Normal None)) "ticket-42" tt tt _
             eq_refl H1).
  - apply (fetch_absent_cases unit node
             (answering (Normal _) (Normal None)) "ticket-42" tt tt _
             eq_refl H2).
  - apply (fetch_absent_cases unit node
             (answering (Normal _) (Normal None)) "ticket-42" tt tt _
             eq_refl H3).
Defined.

(** X18. The decoder completes on every column value, whatever the
    conversions of the runtime do, and so does [fetch] around it: no
    exception leaves either.  A buffer is returned as it is; a value that
    is neither a buffer nor a string gives [null]; on the Node runtime,
    whose conversions do not throw, every string gives some bytes and
    never [null]. *)
Theorem decoder_total :
  forall (W : Type) (rt : Runtime) (cl : Client W) (i : string)
         (v : jsval) (w : W),
    (exists l o, decode_column rt i v w =
                   {| world := w; console := l; result := Normal o |})
    /\ (exists o, result (fetch rt cl i w) = Normal o)
    /\ match v with
       | JBuffer b => result (decode_column rt i v w) = Normal (Some b)
       | JString s =>
           exists b, result (decode_column node i v w) = Normal (Some b)
       | _ => result (decode_column rt i v w) = Normal None
       end.
Proof.
  intros W rt cl i v w. split; [|split].
  - destruct v; try (cbn; eauto; fail).
    rewrite decode_column_string. cbn.
    destruct (decode_string_completes rt i s w) as (l & o & E).
    rewrite E. cbn. eauto.
  - unfold fetch. rewrite result_bind_log.
    apply try_catch_completes. intros e w1. cbn. eauto.
  - destruct v; try reflexivity.
    rewrite decode_column_string. cbn.
    unfold decode_string.
    destruct (startsWith bsx s); [cbn; eauto|].
    destruct (isBase64 s); cbn; eauto.
Qed.

End Further.
